(** * Chat API of the Atharva dental assistant: context assembly and
    generation orchestration ([serving/chat_api.py])

    A shallow embedding of the module and the properties of its pipeline:
    hit normalisation, citation labels, clamping of the sampling parameters,
    answer post-processing and telemetry.

    Conventions of the embedding.
    - A Python [str] is the list of its Unicode code points, so that [len]
      is [length] and the Unicode white space and line boundary tables of
      [str.strip] and [str.splitlines] can be written out in full.
    - The values decoded from JSON that the helpers only read through
      [.get] chains are records of optional fields ([None] stands for a
      missing key and for JSON [null] alike, both of which [.get] followed
      by [or] treats the same way).
    - Python's [int] is [Z], [float] is the kernel's binary64 [float].
    - What the module imports and does not define ([str.lower]'s Unicode
      table, [prompt_templates.build_messages], [float()], [round()]) is a
      [Variable] of the section that uses it. *)

From Stdlib Require Import String Ascii.
From Stdlib Require Import List ZArith NArith Bool Lia Floats.
Import ListNotations.

#[local] Set Warnings "-inexact-float".
Local Open Scope Z_scope.

(* ================================================================== *)
(** ** Python strings *)

Module Py.

Definition codepoint := N.
Definition str := list codepoint.

(** A literal of the source, as its code points. *)
Definition py (s : string) : str := map N_of_ascii (list_ascii_of_string s).

(** [len(s)] *)
Definition len (s : str) : Z := Z.of_nat (length s).

Fixpoint str_eqb (a b : str) : bool :=
  match a, b with
  | [], [] => true
  | x :: a', y :: b' => N.eqb x y && str_eqb a' b'
  | _, _ => false
  end.

(** [lab in seen], for a set of strings of which only membership is used. *)
Definition mem (x : str) (seen : list str) : bool := existsb (str_eqb x) seen.

(** [str.isspace] on one code point: the white space table of CPython
    ([_PyUnicode_IsWhitespace]). *)
Definition isspace (c : codepoint) : bool :=
  ((9 <=? c) && (c <=? 13) || (28 <=? c) && (c <=? 32)
   || (c =? 133) || (c =? 160) || (c =? 5760)
   || (8192 <=? c) && (c <=? 8202)
   || (c =? 8232) || (c =? 8233) || (c =? 8239) || (c =? 8287)
   || (c =? 12288))%N.

(** The line boundaries of [str.splitlines] ([_PyUnicode_IsLinebreak]):
    LF, VT, FF, CR, FS, GS, RS, NEL, LS and PS. *)
Definition islinebreak (c : codepoint) : bool :=
  ((10 <=? c) && (c <=? 13) || (28 <=? c) && (c <=? 30)
   || (c =? 133) || (c =? 8232) || (c =? 8233))%N.

Definition LF : codepoint := 10%N.
Definition CR : codepoint := 13%N.

(** [s.lstrip()] *)
Fixpoint lstrip (s : str) : str :=
  match s with
  | c :: t => if isspace c then lstrip t else s
  | [] => []
  end.

(** [s.rstrip()]: the longest prefix that does not end in white space. *)
Fixpoint rstrip (s : str) : str :=
  match s with
  | [] => []
  | c :: t =>
      match rstrip t with
      | [] => if isspace c then [] else [c]
      | r => c :: r
      end
  end.

(** [s.strip()]: CPython advances the left index first, then the right one. *)
Definition strip (s : str) : str := rstrip (lstrip s).

(** [s.startswith(p)] *)
Fixpoint startswith (s p : str) {struct p} : bool :=
  match p, s with
  | [], _ => true
  | x :: p', y :: s' => N.eqb x y && startswith s' p'
  | _ :: _, [] => false
  end.

(** [s.splitlines()]: the lines of [s] without their boundaries; CR LF is
    one boundary, and a boundary at the very end opens no further line. *)
Fixpoint splitlines (s : str) : list str :=
  match s with
  | [] => []
  | c :: t =>
      if islinebreak c then
        match t with
        | d :: t' => if N.eqb c CR && N.eqb d LF
                     then [] :: splitlines t' else [] :: splitlines t
        | [] => [[]]
        end
      else
        match splitlines t with
        | [] => [[c]]
        | l :: ls => (c :: l) :: ls
        end
  end.

(** [sep.join(parts)] *)
Fixpoint join (sep : str) (parts : list str) : str :=
  match parts with
  | [] => []
  | [x] => x
  | x :: rest => x ++ sep ++ join sep rest
  end.

(** Truth value of an optional string: [None] and [""] are false. *)
Definition truthy (v : option str) : bool :=
  match v with
  | Some (_ :: _) => true
  | _ => false
  end.

(** [v or ""] *)
Definition or_empty (v : option str) : str :=
  match v with
  | Some s => s
  | None => []
  end.

(** ASCII lower-casing of one code point, the part of [str.lower] that does
    not depend on the Unicode database. *)
Definition ascii_lower (c : codepoint) : codepoint :=
  if ((65 <=? c) && (c <=? 90))%N then (c + 32)%N else c.

Definition is_ascii (c : codepoint) : bool := (c <? 128)%N.

End Py.
Import Py.

(* ================================================================== *)
(** ** Retrieval hits *)

(** [meta] of a hit: [doc_id], optional [section], optional inline [text]. *)
Record Meta := mkMeta {
  doc_id : option str;
  section : option str;
  meta_text : option str
}.

(** One retrieval result. *)
Record Hit := mkHit {
  text : option str;
  meta : option Meta
}.

(** [(meta or {}).get(field)] *)
Definition meta_get (m : option Meta) (field : Meta -> option str) : option str :=
  match m with
  | Some mt => field mt
  | None => None
  end.

(** [_label]: the citation label of a hit's [meta]. *)
Definition _label (m : option Meta) : str :=
  let did := meta_get m doc_id in
  let sec := meta_get m section in
  if negb (truthy did) then py "unknown"
  else if truthy sec && negb (str_eqb (or_empty sec) (py "full"))
       then or_empty did ++ py "#" ++ or_empty sec
       else or_empty did.

(** The loop of [_collect_citations], from a given [seen] and [out]. *)
Fixpoint collect_loop (seen out : list str) (hits : list Hit) : list str :=
  match hits with
  | [] => out
  | h :: rest =>
      let lab := _label (meta h) in
      if mem lab seen then collect_loop seen out rest
      else collect_loop (lab :: seen) (out ++ [lab]) rest
  end.

Definition _collect_citations (hits : list Hit) : list str :=
  collect_loop [] [] hits.

(** [h.get("text") or (h.get("meta") or {}).get("text") or ""]: the text
    whose length the budget counts and which the snippets show. *)
Definition hit_text (h : Hit) : str :=
  if truthy (text h) then or_empty (text h)
  else if truthy (meta_get (meta h) meta_text)
       then or_empty (meta_get (meta h) meta_text)
       else [].

(** [list.sort(key=...)] is stable: an element goes behind every element
    whose key is not greater. Keys are booleans, [False < True]. *)
Fixpoint insert_by_key (key : Hit -> bool) (h : Hit) (sorted : list Hit) : list Hit :=
  match sorted with
  | [] => [h]
  | x :: r =>
      if implb (key x) (key h) then x :: insert_by_key key h r
      else h :: x :: r
  end.

Definition sort_by_key (key : Hit -> bool) (l : list Hit) : list Hit :=
  fold_left (fun acc h => insert_by_key key h acc) l [].

(** [h.get("text") is None] *)
Definition text_is_none (h : Hit) : bool :=
  match text h with
  | None => true
  | Some _ => false
  end.

(** The dedup loop of [_normalize_hits]. *)
Fixpoint dedup_loop (seen : list str) (dedup : list Hit) (filt : list Hit) : list Hit :=
  match filt with
  | [] => dedup
  | h :: rest =>
      let lab := _label (meta h) in
      if mem lab seen then dedup_loop seen dedup rest
      else dedup_loop (lab :: seen) (dedup ++ [h]) rest
  end.

Section Normalize.

(** [str.lower], from the Unicode database. *)
Variable lower : str -> str.

(** The module's limits, read from the environment by [int(os.getenv(..))]. *)
Variable MAX_CTX_SNIPPETS : Z.
Variable MAX_CTX_CHARS : Z.

(** The noise filter: hits of [recent_queries.jsonl*] are dropped. *)
Definition is_recent_query (h : Hit) : bool :=
  let did := lower (or_empty (meta_get (meta h) doc_id)) in
  startswith did (py "recent_queries.jsonl").

Definition filter_noise (hits : list Hit) : list Hit :=
  filter (fun h => negb (is_recent_query h)) hits.

(** The trim loop, from a given [total] and [trimmed]; [break] returns. *)
Fixpoint trim_loop (total : Z) (trimmed : list Hit) (dedup : list Hit) : list Hit :=
  match dedup with
  | [] => trimmed
  | h :: rest =>
      let txt := hit_text h in
      let fits :=
        (Z.of_nat (length trimmed) <? MAX_CTX_SNIPPETS)
        && (total + len txt <=? MAX_CTX_CHARS) in
      let trimmed' := if fits then trimmed ++ [h] else trimmed in
      let total' := if fits then total + len txt else total in
      if MAX_CTX_SNIPPETS <=? Z.of_nat (length trimmed') then trimmed'
      else trim_loop total' trimmed' rest
  end.

(** The first three stages of [_normalize_hits]: filter, sort, dedup. *)
Definition dedup_hits (hits : list Hit) : list Hit :=
  dedup_loop [] [] (sort_by_key text_is_none (filter_noise hits)).

Definition _normalize_hits (hits : list Hit) : list Hit :=
  trim_loop 0 [] (dedup_hits hits).

End Normalize.

(* ================================================================== *)
(** ** Answer post-processing *)

Definition NL : str := [LF].

Section Finalize.

Variable lower : str -> str.

(** [ln.strip().lower().startswith("source:")] *)
Definition is_source_line (ln : str) : bool :=
  startswith (lower (strip ln)) (py "source:").

Definition _strip_existing_source (txt : str) : str :=
  let lines := splitlines (rstrip txt) in
  let kept := filter (fun ln => negb (is_source_line ln)) lines in
  rstrip (join NL kept).

(** The footer [chat] appends: [Source: a; b], or [Source: (none)]. *)
Definition source_footer (citations : list str) : str :=
  match citations with
  | [] => NL ++ py "Source: (none)"
  | _ :: _ => NL ++ py "Source: " ++ join (py "; ") citations
  end.

(** The two post-processing statements of [chat]: strip, then append. *)
Definition finalize (content : str) (citations : list str) : str :=
  _strip_existing_source content ++ source_footer citations.

End Finalize.

(* ================================================================== *)
(** ** Decoded JSON, exceptions *)

#[local] Set Warnings "-register-all".
Inductive json :=
| JNull
| JBool (b : bool)
| JInt (z : Z)
| JFloat (f : float)
| JStr (s : str)
| JList (l : list json)
| JDict (kv : list (str * json)).

Inductive exn :=
| HttpxError (what : str)   (* transport, time-out, status, body decoding *)
| KeyError
| IndexError
| TypeError
| AttributeError
| ValueError.

Inductive result (A : Type) :=
| Ok (a : A)
| Raise (e : exn).
Arguments Ok {A} a.
Arguments Raise {A} e.

(** Key lookup in a decoded object. *)
Fixpoint lookup (k : str) (kv : list (str * json)) : option json :=
  match kv with
  | [] => None
  | (k', v) :: rest => if str_eqb k k' then Some v else lookup k rest
  end.

(** [v[key]] for a string key. *)
Definition getitem_key (v : json) (key : str) : result json :=
  match v with
  | JDict kv => match lookup key kv with
                | Some x => Ok x
                | None => Raise KeyError
                end
  | _ => Raise TypeError
  end.

(** [v[0]] *)
Definition getitem_0 (v : json) : result json :=
  match v with
  | JList (x :: _) => Ok x
  | JList [] => Raise IndexError
  | JStr (c :: _) => Ok (JStr [c])
  | JStr [] => Raise IndexError
  | JDict _ => Raise KeyError
  | _ => Raise TypeError
  end.

(** [v.get(key, default)] *)
Definition dict_get (v : json) (key : str) (default : json) : result json :=
  match v with
  | JDict kv => match lookup key kv with
                | Some x => Ok x
                | None => Ok default
                end
  | _ => Raise AttributeError
  end.

(** Truth value of a decoded JSON value. *)
Definition json_truthy (v : json) : bool :=
  match v with
  | JNull => false
  | JBool b => b
  | JInt z => negb (z =? 0)
  | JFloat f => negb (PrimFloat.eqb f 0%float)
  | JStr s => negb (str_eqb s [])
  | JList l => match l with [] => false | _ => true end
  | JDict kv => match kv with [] => false | _ => true end
  end.

(** Two-argument [min] and [max]: the first argument wins unless the second
    compares strictly smaller (greater). *)
Definition float_min (a b : float) : float := if PrimFloat.ltb b a then b else a.
Definition float_max (a b : float) : float := if PrimFloat.ltb a b then b else a.
Definition int_min (a b : Z) : Z := if b <? a then b else a.

(* ================================================================== *)
(** ** Requests, payloads, responses *)

Record Message := mkMessage {
  role : str;
  content : str
}.

Module ChatRequest.
Record t := mk {
  question : str;
  k : Z;
  max_tokens : Z;
  temperature : float;
  debug : bool
}.
End ChatRequest.

Module Payload.
Record t := mk {
  model : str;
  messages : list Message;
  temperature : float;
  top_p : float;
  max_tokens : Z;
  stream : bool
}.
End Payload.

Record Snippet := mkSnippet {
  label : str;
  snippet_text : str
}.

Module Debug.
Record t := mk {
  messages : list Message;
  used_snippets : list Snippet;
  raw_hits : list Hit;
  payload_model : str;
  payload_temperature : float;
  payload_max_tokens : Z
}.
End Debug.

Module ChatResponse.
Record t := mk {
  answer : str;
  citations : list str;
  latency_seconds : float;
  usage : json;
  debug : option Debug.t
}.
End ChatResponse.

Module DryrunResponse.
Record t := mk {
  question : str;
  citations : list str;
  used_snippets : list Snippet;
  messages : list Message;
  note : str
}.
End DryrunResponse.

(* ================================================================== *)
(** ** Telemetry and the state a request handler runs in *)

(** The process-wide metrics: labelled counters, histograms as the list of
    their observations, gauges; and two ghost fields, the number of
    [time.time()] readings taken and the payloads posted to the generation
    backend. *)
Record State := mkState {
  REQS : str -> nat;
  ERRS : str -> nat;
  E2E_LAT : list float;
  RAG_LAT : list float;
  VLLM_LAT : list float;
  TOK_PROMPT : float;
  TOK_COMPLETION : float;
  TOK_TOTAL : float;
  now : nat;
  outbox : list Payload.t
}.

(** [counter.labels(l).inc()] *)
Definition inc (counter : str -> nat) (l : str) : str -> nat :=
  fun l' => if str_eqb l' l then S (counter l') else counter l'.

Definition M (A : Type) : Type := State -> result A * State.

Definition ret {A} (a : A) : M A := fun st => (Ok a, st).

Definition raise {A} (e : exn) : M A := fun st => (Raise e, st).

Definition bind {A B} (m : M A) (f : A -> M B) : M B :=
  fun st =>
    match m st with
    | (Ok a, st') => f a st'
    | (Raise e, st') => (Raise e, st')
    end.

Definition lift {A} (r : result A) : M A := fun st => (r, st).

Declare Scope py_scope.
Delimit Scope py_scope with py.
Notation "x <- m ;; f" := (bind m (fun x => f))
  (at level 61, m at next level, right associativity) : py_scope.
Notation "m ;;; f" := (bind m (fun _ => f))
  (at level 61, right associativity) : py_scope.
Local Open Scope py_scope.

(** [except Exception: handler; raise] *)
Definition except_reraise {A} (body : M A) (handler : M unit) : M A :=
  fun st =>
    match body st with
    | (Ok a, st') => (Ok a, st')
    | (Raise e, st') =>
        match handler st' with
        | (Ok _, st'') => (Raise e, st'')
        | (Raise e', st'') => (Raise e', st'')
        end
    end.

(** [except Exception: pass] *)
Definition except_pass (body : M unit) : M unit :=
  fun st =>
    match body st with
    | (Ok a, st') => (Ok a, st')
    | (Raise _, st') => (Ok tt, st')
    end.

(** [try: body finally: fin] *)
Definition finally {A} (body : M A) (fin : M unit) : M A :=
  fun st =>
    match body st with
    | (r, st') =>
        match fin st' with
        | (Ok _, st'') => (r, st'')
        | (Raise e', st'') => (Raise e', st'')
        end
    end.

Definition modify (f : State -> State) : M unit := fun st => (Ok tt, f st).

Definition inc_REQS (route : str) : M unit :=
  modify (fun st => mkState (inc (REQS st) route) (ERRS st) (E2E_LAT st)
    (RAG_LAT st) (VLLM_LAT st) (TOK_PROMPT st) (TOK_COMPLETION st)
    (TOK_TOTAL st) (now st) (outbox st)).

Definition inc_ERRS (stage : str) : M unit :=
  modify (fun st => mkState (REQS st) (inc (ERRS st) stage) (E2E_LAT st)
    (RAG_LAT st) (VLLM_LAT st) (TOK_PROMPT st) (TOK_COMPLETION st)
    (TOK_TOTAL st) (now st) (outbox st)).

Definition observe_E2E_LAT (v : float) : M unit :=
  modify (fun st => mkState (REQS st) (ERRS st) (E2E_LAT st ++ [v])
    (RAG_LAT st) (VLLM_LAT st) (TOK_PROMPT st) (TOK_COMPLETION st)
    (TOK_TOTAL st) (now st) (outbox st)).

Definition observe_RAG_LAT (v : float) : M unit :=
  modify (fun st => mkState (REQS st) (ERRS st) (E2E_LAT st)
    (RAG_LAT st ++ [v]) (VLLM_LAT st) (TOK_PROMPT st) (TOK_COMPLETION st)
    (TOK_TOTAL st) (now st) (outbox st)).

Definition observe_VLLM_LAT (v : float) : M unit :=
  modify (fun st => mkState (REQS st) (ERRS st) (E2E_LAT st)
    (RAG_LAT st) (VLLM_LAT st ++ [v]) (TOK_PROMPT st) (TOK_COMPLETION st)
    (TOK_TOTAL st) (now st) (outbox st)).

Definition set_TOK_PROMPT (v : float) : M unit :=
  modify (fun st => mkState (REQS st) (ERRS st) (E2E_LAT st)
    (RAG_LAT st) (VLLM_LAT st) v (TOK_COMPLETION st)
    (TOK_TOTAL st) (now st) (outbox st)).

Definition set_TOK_COMPLETION (v : float) : M unit :=
  modify (fun st => mkState (REQS st) (ERRS st) (E2E_LAT st)
    (RAG_LAT st) (VLLM_LAT st) (TOK_PROMPT st) v
    (TOK_TOTAL st) (now st) (outbox st)).

Definition set_TOK_TOTAL (v : float) : M unit :=
  modify (fun st => mkState (REQS st) (ERRS st) (E2E_LAT st)
    (RAG_LAT st) (VLLM_LAT st) (TOK_PROMPT st) (TOK_COMPLETION st)
    v (now st) (outbox st)).

(** What a handler meets outside the process: the successive readings of
    [time.time()], the retrieval service (request, status check, decoding
    and [.get("hits", [])] together) and the generation backend (request,
    status check and decoding together).

    [search] answers [Ok raw] for a reply whose [hits] is a list of hit
    objects, the contract of the retrieval service. A reply whose [hits]
    is something else (null, an object, a list of other values) leaves the
    guarded block of the retrieval stage without an error and makes the
    handler raise further down, in [_normalize_hits] or at [raw_hits[:10]];
    such replies are outside [World], so a property stated for [Ok raw]
    is a property of well-formed replies. *)
Record World := mkWorld {
  clock : nat -> float;
  search : str -> Z -> result (list Hit);
  completions : Payload.t -> result json
}.

(* ================================================================== *)
(** ** The handlers *)

Section Handlers.

Variable lower : str -> str.
Variable MAX_CTX_SNIPPETS : Z.
Variable MAX_CTX_CHARS : Z.
Variable MODEL_NAME : str.

(** [prompt_templates.build_messages], a pure function of the question and
    the evidence. *)
Variable build_messages : str -> list Hit -> list Message.

(** [float(v)] of a decoded JSON value and [round(dt, 3)]. *)
Variable py_float : json -> result float.
Variable round3 : float -> float.

Variable w : World.

(** [time.time()] *)
Definition time_time : M float :=
  fun st => (Ok (clock w (now st)),
             mkState (REQS st) (ERRS st) (E2E_LAT st) (RAG_LAT st)
               (VLLM_LAT st) (TOK_PROMPT st) (TOK_COMPLETION st)
               (TOK_TOTAL st) (S (now st)) (outbox st)).

(** The request to the generation backend, with what it decodes to. *)
Definition post_completions (payload : Payload.t) : M json :=
  fun st => (completions w payload,
             mkState (REQS st) (ERRS st) (E2E_LAT st) (RAG_LAT st)
               (VLLM_LAT st) (TOK_PROMPT st) (TOK_COMPLETION st)
               (TOK_TOTAL st) (now st) (outbox st ++ [payload])).

(** The retrieval stage shared by [dryrun] and [chat]: the error counter in
    the [except] clause, the latency in the [finally] clause. *)
Definition retrieve (q : str) (k : Z) : M (list Hit) :=
  t_r0 <- time_time ;;
  finally
    (except_reraise (lift (search w q k)) (inc_ERRS (py "retriever")))
    (t <- time_time ;; observe_RAG_LAT (PrimFloat.sub t t_r0)).

(** The snippets a response surfaces: label and text of each evidence hit. *)
Definition used_snippets_of (ctx_hits : list Hit) : list Snippet :=
  map (fun h => mkSnippet (_label (meta h)) (hit_text h)) ctx_hits.

Definition dryrun (q : str) (k : Z) : M DryrunResponse.t :=
  inc_REQS (py "/dryrun") ;;;
  raw_hits <- retrieve q k ;;
  let ctx_hits := _normalize_hits lower MAX_CTX_SNIPPETS MAX_CTX_CHARS raw_hits in
  let citations := _collect_citations ctx_hits in
  let messages := build_messages q ctx_hits in
  ret (DryrunResponse.mk q citations (used_snippets_of ctx_hits) messages
         (py "This is a dry run; no LLM call was made.")).

(** The sampling parameters [chat] sends, clamped. *)
Definition clamp_temperature (t : float) : float :=
  float_max 0%float (float_min t 0.5%float).

Definition clamp_max_tokens (n : Z) : Z := int_min n 256.

Definition chat_payload (req : ChatRequest.t) (messages : list Message) : Payload.t :=
  Payload.mk MODEL_NAME messages
    (clamp_temperature (ChatRequest.temperature req))
    0.9%float
    (clamp_max_tokens (ChatRequest.max_tokens req))
    false.

(** The generation stage: request, error counter, latency. *)
Definition generate (payload : Payload.t) : M json :=
  t_llm0 <- time_time ;;
  finally
    (except_reraise (post_completions payload) (inc_ERRS (py "vllm")))
    (t <- time_time ;; observe_VLLM_LAT (PrimFloat.sub t t_llm0)).

(** [data["choices"][0]["message"]["content"]] *)
Definition extract_content (data : json) : result json :=
  match getitem_key data (py "choices") with
  | Raise e => Raise e
  | Ok choices =>
      match getitem_0 choices with
      | Raise e => Raise e
      | Ok choice =>
          match getitem_key choice (py "message") with
          | Raise e => Raise e
          | Ok message => getitem_key message (py "content")
          end
      end
  end.

(** [content.rstrip()] needs a string. *)
Definition as_str (v : json) : result str :=
  match v with
  | JStr s => Ok s
  | _ => Raise AttributeError
  end.

(** [float(usage.get(key, 0) or 0)] *)
Definition usage_float (usage : json) (key : str) : result float :=
  match dict_get usage key (JInt 0) with
  | Raise e => Raise e
  | Ok v => py_float (if json_truthy v then v else JInt 0)
  end.

(** The best-effort update of the token gauges. *)
Definition update_token_gauges (usage : json) : M unit :=
  except_pass
    (p <- lift (usage_float usage (py "prompt_tokens")) ;;
     set_TOK_PROMPT p ;;;
     c <- lift (usage_float usage (py "completion_tokens")) ;;
     set_TOK_COMPLETION c ;;;
     t <- lift (usage_float usage (py "total_tokens")) ;;
     set_TOK_TOTAL t).

Definition chat (req : ChatRequest.t) : M ChatResponse.t :=
  inc_REQS (py "/chat") ;;;
  t0 <- time_time ;;
  raw_hits <- retrieve (ChatRequest.question req) (ChatRequest.k req) ;;
  let ctx_hits := _normalize_hits lower MAX_CTX_SNIPPETS MAX_CTX_CHARS raw_hits in
  let citations := _collect_citations ctx_hits in
  let messages := build_messages (ChatRequest.question req) ctx_hits in
  let payload := chat_payload req messages in
  data <- generate payload ;;
  content <- lift (extract_content data) ;;
  usage <- lift (dict_get data (py "usage") (JDict [])) ;;
  t1 <- time_time ;;
  let dt := PrimFloat.sub t1 t0 in
  content <- lift (as_str content) ;;
  let content := finalize lower content citations in
  update_token_gauges usage ;;;
  observe_E2E_LAT dt ;;;
  ret (ChatResponse.mk content citations (round3 dt) usage
         (if ChatRequest.debug req
          then Some (Debug.mk messages (used_snippets_of ctx_hits)
                       (firstn 10 raw_hits) MODEL_NAME
                       (Payload.temperature payload)
                       (Payload.max_tokens payload))
          else None)).

End Handlers.

(* ================================================================== *)
(** ** Vocabulary of the properties *)

(** A string without line boundary. *)
Definition no_linebreak (s : str) : Prop :=
  Forall (fun c => islinebreak c = false) s.

(** Sum of the text lengths of a sequence of hits. *)
Definition total_chars (hits : list Hit) : Z :=
  fold_right (fun h acc => len (hit_text h) + acc) 0 hits.

(** Position of the first occurrence of [x] in [l] ([length l] if none). *)
Fixpoint first_index (x : str) (l : list str) : nat :=
  match l with
  | [] => O
  | y :: r => if str_eqb x y then O else S (first_index x r)
  end.

(** The budget trim in the words of the design: walk the sequence in order
    with the number of hits admitted and the running total of characters;
    stop once the snippet limit is reached; take a hit when its text keeps
    the total within the character budget, skip it otherwise. *)
Fixpoint budget_walk (max_snippets max_chars : Z) (admitted total : Z)
    (hits : list Hit) : list Hit :=
  match hits with
  | [] => []
  | h :: rest =>
      if max_snippets <=? admitted then []
      else if total + len (hit_text h) <=? max_chars
           then h :: budget_walk max_snippets max_chars
                       (admitted + 1) (total + len (hit_text h)) rest
           else budget_walk max_snippets max_chars admitted total rest
  end.

(** An optional field counts as absent when the key is missing, null or
    the empty string. *)
Definition absent (v : option str) : Prop := v = None \/ v = Some [].

(** The labels of a sequence of hits, in order. *)
Definition labels_of (hits : list Hit) : list str :=
  map (fun h => _label (meta h)) hits.

(** A sampling temperature within [0.0, 0.5]. *)
Definition temperature_in_range (t : float) : Prop :=
  PrimFloat.leb 0%float t = true /\ PrimFloat.leb t 0.5%float = true.

(** The payloads a handler run posted: what the outbox gained. *)
Definition posted_since (before after : State) : list Payload.t :=
  skipn (length (outbox before)) (outbox after).

(* ================================================================== *)
(** ** Sample instances *)

(** ASCII-only lower-casing, an instance of [str.lower] on ASCII text. *)
Definition lower_ascii (s : str) : str := map ascii_lower s.

(** A prompt builder: the snippets as the system turn, then the question. *)
Definition sample_build_messages (q : str) (hits : list Hit) : list Message :=
  [mkMessage (py "system") (join NL (map hit_text hits));
   mkMessage (py "user") q].

(** [float()] on the token counts a usage mapping holds: floats, booleans
    and integers from 0 up to 2^63 - 1. An instance for the sample runs
    only: other integers and numeric strings, which [float()] converts as
    well, are not covered by it. *)
Definition sample_float (v : json) : result float :=
  match v with
  | JFloat f => Ok f
  | JInt z => Ok (PrimFloat.of_uint63 (Uint63.of_Z z))
  | JBool b => Ok (if b then 1%float else 0%float)
  | _ => Raise TypeError
  end.

Definition sample_round (f : float) : float := f.

Definition sample_clock (n : nat) : float :=
  PrimFloat.of_uint63 (Uint63.of_Z (Z.of_nat n)).

Definition sample_model : str := py "smollm2-135m-atharva".

(** The retrieval response of the design's example: a noise hit and one
    groundable hit. *)
Definition sample_hits : list Hit :=
  [mkHit (Some (py "noise"))
     (Some (mkMeta (Some (py "recent_queries.jsonl.gz")) None None));
   mkHit (Some (py "hello"))
     (Some (mkMeta (Some (py "A")) (Some (py "intro")) None))].

Definition sample_completion : json :=
  JDict [(py "choices",
          JList [JDict [(py "message",
                         JDict [(py "role", JStr (py "assistant"));
                                (py "content", JStr (py "Brush gently."))])]]);
         (py "usage",
          JDict [(py "prompt_tokens", JInt 42);
                 (py "completion_tokens", JInt 7);
                 (py "total_tokens", JInt 49)])].

(** Both services answer. *)
Definition world_ok : World :=
  mkWorld sample_clock (fun _ _ => Ok sample_hits) (fun _ => Ok sample_completion).

(** The generation backend answers 200 with the body [{}]. *)
Definition world_malformed : World :=
  mkWorld sample_clock (fun _ _ => Ok sample_hits) (fun _ => Ok (JDict [])).

(** The retrieval service times out. *)
Definition world_retrieval_down : World :=
  mkWorld sample_clock (fun _ _ => Raise (HttpxError (py "ConnectTimeout")))
    (fun _ => Ok sample_completion).

(** A fresh process: nothing counted, nothing observed, nothing posted. *)
Definition fresh : State :=
  mkState (fun _ => O) (fun _ => O) [] [] [] 0%float 0%float 0%float O [].

(** [chat] and [dryrun] with the default limits and the sample instances. *)
Definition sample_chat (w : World) : ChatRequest.t -> M ChatResponse.t :=
  chat lower_ascii 3 2400 sample_model sample_build_messages sample_float
    sample_round w.

Definition sample_dryrun (w : World) : str -> Z -> M DryrunResponse.t :=
  dryrun lower_ascii 3 2400 sample_build_messages w.

Definition sample_request : ChatRequest.t :=
  ChatRequest.mk (py "How do I rinse?") 4 500 0.9%float true.

(* ================================================================== *)
(** ** Vocabulary of the further properties *)

(** [subseq sub l]: [sub] is [l] with some hits left out, the order kept. *)
Inductive subseq : list Hit -> list Hit -> Prop :=
| subseq_nil : subseq [] []
| subseq_skip (x : Hit) (sub l : list Hit) : subseq sub l -> subseq sub (x :: l)
| subseq_take (x : Hit) (sub l : list Hit) : subseq sub l -> subseq (x :: sub) (x :: l).

(** The first hit of [l] whose label is [lab]. *)
Definition first_with_label (lab : str) (l : list Hit) : option Hit :=
  find (fun x => str_eqb (_label (meta x)) lab) l.

(** [h.get("text") is not None] *)
Definition has_text (h : Hit) : bool := negb (text_is_none h).

(** The completion shape [chat] reads: an object whose [choices] is a list
    that starts with an object whose [message] is an object with a
    [content]. *)
Definition completion_shape (data content : json) : Prop :=
  exists kv ch rest msg,
    data = JDict kv
    /\ lookup (py "choices") kv = Some (JList (JDict ch :: rest))
    /\ lookup (py "message") ch = Some (JDict msg)
    /\ lookup (py "content") msg = Some content.

(** The three token gauges of a state. *)
Definition token_gauges (st : State) : float * float * float :=
  (TOK_PROMPT st, TOK_COMPLETION st, TOK_TOTAL st).

(** The generation backend times out. *)
Definition world_generation_down : World :=
  mkWorld sample_clock (fun _ _ => Ok sample_hits)
    (fun _ => Raise (HttpxError (py "ReadTimeout"))).

(** The generation backend answers with a null content. *)
Definition world_null_content : World :=
  mkWorld sample_clock (fun _ _ => Ok sample_hits)
    (fun _ =>
       Ok (JDict [(py "choices",
                   JList [JDict [(py "message",
                                  JDict [(py "content", JNull)])]])])).

(** Two hits of one label, the one without inline text first. *)
Definition sample_duplicates : list Hit :=
  [mkHit None (Some (mkMeta (Some (py "A")) (Some (py "intro")) (Some (py "old"))));
   mkHit (Some (py "hello"))
     (Some (mkMeta (Some (py "A")) (Some (py "intro")) None))].

(** A hit of the query log, its [doc_id] in mixed case. *)
Definition sample_noise_hit : Hit :=
  mkHit (Some (py "what about braces"))
    (Some (mkMeta (Some (py "Recent_Queries.JSONL.gz")) None None)).

(** An answer that is nothing but source lines. *)
Definition sample_only_sources : str :=
  py "Source: made-up.md" ++ NL ++ py "  SOURCE: other.md  " ++ NL.

(* ================================================================== *)
(** ** Facts about the string operations *)

Lemma str_eqb_eq (a b : str) : str_eqb a b = true <-> a = b.
Proof.
  revert b; induction a as [|x a IH]; intros [|y b]; simpl; try easy.
  rewrite andb_true_iff, N.eqb_eq, IH. split.
  - intros [-> ->]; reflexivity.
  - intros H; inversion H; auto.
Qed.

Lemma str_eqb_refl (a : str) : str_eqb a a = true.
Proof. apply str_eqb_eq; reflexivity. Qed.

Lemma str_eqb_neq (a b : str) : str_eqb a b = false <-> a <> b.
Proof.
  rewrite <- str_eqb_eq. destruct (str_eqb a b); split; congruence.
Qed.

Lemma mem_In (x : str) (l : list str) : mem x l = true <-> In x l.
Proof.
  unfold mem. rewrite existsb_exists. split.
  - intros (y & Hy & E). apply str_eqb_eq in E. subst. exact Hy.
  - intros H. exists x. split; [exact H | apply str_eqb_refl].
Qed.

Lemma mem_not_In (x : str) (l : list str) : mem x l = false <-> ~ In x l.
Proof.
  rewrite <- mem_In. destruct (mem x l); split; congruence.
Qed.

Lemma linebreak_isspace (c : codepoint) :
  islinebreak c = true -> isspace c = true.
Proof.
  unfold islinebreak, isspace.
  rewrite !orb_true_iff, !andb_true_iff, !N.leb_le, !N.eqb_eq.
  intros H. lia.
Qed.

Lemma rstrip_nil (s : str) :
  rstrip s = [] <-> Forall (fun c => isspace c = true) s.
Proof.
  induction s as [|c t IH]; simpl.
  - split; auto.
  - destruct (rstrip t) as [|r0 r] eqn:E.
    + destruct (isspace c) eqn:Ec; split; intros H.
      * constructor; [exact Ec | now apply IH].
      * reflexivity.
      * discriminate.
      * inversion H; congruence.
    + split; intros H; [discriminate|].
      inversion H; subst. destruct IH as [_ IH]. now specialize (IH H3).
Qed.

Lemma rstrip_app_keep (a b : str) :
  rstrip b <> [] -> rstrip (a ++ b) = a ++ rstrip b.
Proof.
  intros Hb. induction a as [|c a IH]; simpl; [reflexivity|].
  rewrite IH. destruct (a ++ rstrip b) eqn:E; [|reflexivity].
  apply app_eq_nil in E. destruct E; contradiction.
Qed.

Lemma rstrip_app_drop (a b : str) :
  rstrip b = [] -> rstrip (a ++ b) = rstrip a.
Proof.
  intros Hb. induction a as [|c a IH]; simpl; [exact Hb|].
  rewrite IH. reflexivity.
Qed.

Lemma rstrip_idem (s : str) : rstrip (rstrip s) = rstrip s.
Proof.
  induction s as [|c t IH]; simpl; [reflexivity|].
  destruct (rstrip t) as [|r0 r] eqn:E.
  - destruct (isspace c) eqn:Ec; simpl; [reflexivity|]. now rewrite Ec.
  - simpl in *. rewrite IH. reflexivity.
Qed.

Lemma rstrip_app_fixed (a b : str) :
  rstrip a = a -> a <> [] -> rstrip (a ++ b) = a ++ rstrip b.
Proof.
  intros Ha Hne. destruct (rstrip b) eqn:E.
  - rewrite rstrip_app_drop by exact E. now rewrite app_nil_r.
  - rewrite rstrip_app_keep by congruence. now rewrite E.
Qed.

Lemma rstrip_Forall (P : codepoint -> Prop) (s : str) :
  Forall P s -> Forall P (rstrip s).
Proof.
  induction 1 as [|c t Hc Ht IH]; simpl; [constructor|].
  destruct (rstrip t) as [|r0 r].
  - destruct (isspace c); auto.
  - constructor; assumption.
Qed.

Lemma rstrip_cons_keep (c : codepoint) (t : str) :
  isspace c = false -> exists u, rstrip (c :: t) = c :: u.
Proof.
  intros Ec. simpl. destruct (rstrip t) as [|r0 r].
  - rewrite Ec. now exists [].
  - now exists (r0 :: r).
Qed.

Lemma lstrip_all_space (s : str) :
  Forall (fun c => isspace c = true) s -> lstrip s = [].
Proof.
  induction 1 as [|d u Hd Hu IHu]; simpl; [reflexivity|]. now rewrite Hd.
Qed.

Lemma lstrip_rstrip (s : str) : rstrip (lstrip (rstrip s)) = rstrip (lstrip s).
Proof.
  induction s as [|c t IH]; [reflexivity|].
  destruct (isspace c) eqn:Ec.
  - cbn [lstrip]. rewrite Ec. cbn [rstrip].
    destruct (rstrip t) as [|r0 r] eqn:E.
    + rewrite Ec. apply rstrip_nil in E.
      rewrite (lstrip_all_space _ E). reflexivity.
    + cbn [lstrip]. rewrite Ec. exact IH.
  - destruct (rstrip_cons_keep c t Ec) as [u E].
    replace (lstrip (c :: t)) with (c :: t) by (simpl; now rewrite Ec).
    rewrite E. cbn [lstrip]. rewrite Ec, <- E. apply rstrip_idem.
Qed.

Lemma strip_rstrip (s : str) : strip (rstrip s) = strip s.
Proof. apply lstrip_rstrip. Qed.

Lemma startswith_app (p r : str) : startswith (p ++ r) p = true.
Proof.
  induction p as [|x p IH]; simpl; [reflexivity|].
  now rewrite N.eqb_refl, IH.
Qed.

Lemma join_snoc (sep : str) (parts : list str) (x : str) :
  parts <> [] -> join sep (parts ++ [x]) = join sep parts ++ sep ++ x.
Proof.
  induction parts as [|y parts IH]; [congruence|]. intros _.
  destruct parts as [|z parts]; [reflexivity|].
  change (y ++ sep ++ join sep ((z :: parts) ++ [x])
          = (y ++ sep ++ join sep (z :: parts)) ++ sep ++ x).
  rewrite IH by discriminate. now rewrite <- !app_assoc.
Qed.

Lemma join_Forall (P : codepoint -> Prop) (sep : str) (parts : list str) :
  Forall P sep -> Forall (Forall P) parts -> Forall P (join sep parts).
Proof.
  intros Hs. induction 1 as [|x parts Hx Hp IH]; [constructor|].
  destruct parts as [|y parts]; [exact Hx|].
  change (Forall P (x ++ sep ++ join sep (y :: parts))).
  rewrite !Forall_app. auto.
Qed.

Lemma splitlines_LF (rest : str) : splitlines (LF :: rest) = [] :: splitlines rest.
Proof. destruct rest; reflexivity. Qed.

Lemma splitlines_line (l rest : str) :
  no_linebreak l -> splitlines (l ++ LF :: rest) = l :: splitlines rest.
Proof.
  induction 1 as [|c l Hc Hl IH].
  - apply splitlines_LF.
  - change (splitlines (c :: (l ++ LF :: rest)) = (c :: l) :: splitlines rest).
    cbn [splitlines]. rewrite Hc. fold splitlines. now rewrite IH.
Qed.

Lemma splitlines_single (l : str) :
  no_linebreak l -> l <> [] -> splitlines l = [l].
Proof.
  induction 1 as [|c l Hc Hl IH]; [congruence|]. intros _.
  cbn [splitlines]. rewrite Hc. fold splitlines.
  destruct l as [|d l]; [reflexivity|].
  now rewrite IH by discriminate.
Qed.

Lemma splitlines_join (lines : list str) (x : str) :
  Forall no_linebreak lines -> no_linebreak x -> x <> [] ->
  splitlines (join NL (lines ++ [x])) = lines ++ [x].
Proof.
  intros Hl Hx Hne. induction Hl as [|y lines Hy Hl IH].
  - apply splitlines_single; assumption.
  - change (splitlines (join NL (y :: (lines ++ [x]))) = y :: (lines ++ [x])).
    assert (E : join NL (y :: (lines ++ [x]))
                = y ++ LF :: join NL (lines ++ [x])).
    { destruct lines; reflexivity. }
    rewrite E, splitlines_line by exact Hy. now rewrite IH.
Qed.

Lemma splitlines_no_linebreak_aux (n : nat) :
  forall s, (length s <= n)%nat -> Forall no_linebreak (splitlines s).
Proof.
  induction n as [|n IH]; intros [|c t] Hlen; simpl in Hlen;
    try (constructor; fail); try lia.
  cbn [splitlines]. destruct (islinebreak c) eqn:Ec.
  - destruct t as [|d t'].
    + repeat constructor.
    + destruct (N.eqb c CR && N.eqb d LF); constructor;
        try constructor; apply IH; simpl in *; lia.
  - fold splitlines.
    assert (H := IH t ltac:(lia)).
    destruct (splitlines t) as [|l ls].
    + repeat constructor. exact Ec.
    + inversion H; subst. constructor; [constructor; assumption | assumption].
Qed.

Lemma splitlines_no_linebreak (s : str) : Forall no_linebreak (splitlines s).
Proof. apply (splitlines_no_linebreak_aux (length s)). lia. Qed.

Lemma filter_all {A : Type} (f : A -> bool) (l : list A) :
  (forall x, In x l -> f x = true) -> filter f l = l.
Proof.
  induction l as [|a l IH]; intros H; simpl; [reflexivity|].
  rewrite (H a (or_introl eq_refl)), IH; [reflexivity|].
  intros y Hy. apply H. now right.
Qed.

(** Stripping the joined lines on the right leaves joined lines again: the
    trailing blank lines go, the last line kept is stripped on the right. *)
Lemma rstrip_join (lines : list str) :
  Forall no_linebreak lines ->
  exists lines',
    rstrip (join NL lines) = join NL lines'
    /\ Forall no_linebreak lines'
    /\ (forall l, In l lines' -> exists l0, In l0 lines /\ strip l = strip l0)
    /\ (lines' = [] \/ exists init x, lines' = init ++ [x] /\ x <> []).
Proof.
  induction lines as [|x lines IH] using rev_ind; intros Hall.
  - exists []. repeat split; auto. intros l [].
  - apply Forall_app in Hall. destruct Hall as [Hl Hx].
    inversion Hx as [|? ? Hx' _]; subst. clear Hx.
    destruct (rstrip x) as [|r0 r] eqn:Ex.
    + destruct lines as [|k lines].
      * exists []. simpl. repeat split; auto. intros l [].
      * destruct (IH Hl) as (lines' & E & Hnl & Hin & Hlast).
        exists lines'. split; [|split; [exact Hnl|split; [|exact Hlast]]].
        -- rewrite join_snoc by discriminate.
           rewrite rstrip_app_drop; [exact E|].
           apply rstrip_nil. apply rstrip_nil in Ex.
           constructor; [reflexivity | exact Ex].
        -- intros l Hl'. destruct (Hin l Hl') as (l0 & H0 & E0).
           exists l0. split; [|exact E0]. apply in_or_app. now left.
    + exists (lines ++ [rstrip x]). split; [|split; [|split]].
      * destruct lines as [|k lines]; [reflexivity|].
        rewrite !join_snoc by discriminate.
        assert (Hne : rstrip x <> []) by (rewrite Ex; discriminate).
        rewrite rstrip_app_keep.
        -- now rewrite (rstrip_app_keep NL x Hne).
        -- rewrite (rstrip_app_keep NL x Hne). discriminate.
      * apply Forall_app. split; [exact Hl|].
        constructor; [|constructor]. apply rstrip_Forall. exact Hx'.
      * intros l Hl'. apply in_app_or in Hl'. destruct Hl' as [Hl'|[<-|[]]].
        -- exists l. split; [apply in_or_app; now left | reflexivity].
        -- exists x. split; [apply in_or_app; right; now left|].
           apply strip_rstrip.
      * right. exists lines, (rstrip x). split; [reflexivity|].
        rewrite Ex. discriminate.
Qed.

Section FinalizeFacts.

Variable lower : str -> str.

(** What the proofs use of [str.lower]: ASCII text at the front of a string
    is lower-cased code point by code point. *)
Hypothesis lower_ascii_prefix : forall p s,
  forallb is_ascii p = true -> exists r, lower (p ++ s) = map ascii_lower p ++ r.

Lemma footer_is_source_line (rest : str) :
  is_source_line lower (rstrip (py "Source:" ++ rest)) = true.
Proof.
  unfold is_source_line, strip.
  rewrite (rstrip_app_fixed (py "Source:") rest eq_refl) by discriminate.
  replace (lstrip (py "Source:" ++ rstrip rest))
    with (py "Source:" ++ rstrip rest) by reflexivity.
  rewrite (rstrip_app_fixed (py "Source:") (rstrip rest) eq_refl) by discriminate.
  rewrite rstrip_idem.
  destruct (lower_ascii_prefix (py "Source:") (rstrip rest) eq_refl) as [r ->].
  apply (startswith_app (py "source:") r).
Qed.

Lemma is_source_line_strip (a b : str) :
  strip a = strip b -> is_source_line lower a = is_source_line lower b.
Proof. unfold is_source_line. now intros ->. Qed.

(** A second pass over the stripped answer followed by a one-line footer
    that starts with [Source:] gives the stripped answer back. *)
Lemma strip_existing_source_footer (x rest : str) :
  no_linebreak rest ->
  _strip_existing_source lower
    (_strip_existing_source lower x ++ NL ++ py "Source:" ++ rest)
  = _strip_existing_source lower x.
Proof.
  intros Hrest.
  set (keep := fun ln => negb (is_source_line lower ln)).
  set (kept := filter keep (splitlines (rstrip x))).
  assert (Hkept : Forall no_linebreak kept).
  { apply Forall_forall. intros l Hl. apply filter_In in Hl.
    destruct Hl as [Hl _]. revert l Hl. apply Forall_forall.
    apply splitlines_no_linebreak. }
  assert (Hkeep : forall l, In l kept -> keep l = true).
  { intros l Hl. apply filter_In in Hl. tauto. }
  destruct (rstrip_join kept Hkept) as (lines & E & Hnl & Hin & Hlast).
  assert (Ey : _strip_existing_source lower x = join NL lines) by exact E.
  assert (Hfix : rstrip (join NL lines) = join NL lines).
  { rewrite <- E. apply rstrip_idem. }
  rewrite Ey.
  set (f := rstrip (py "Source:" ++ rest)).
  assert (Hf : f = py "Source:" ++ rstrip rest).
  { apply (rstrip_app_fixed (py "Source:") rest eq_refl). discriminate. }
  assert (Hfne : f <> []) by (rewrite Hf; discriminate).
  assert (Hfnl : no_linebreak f).
  { rewrite Hf. apply Forall_app. split.
    - repeat constructor.
    - apply rstrip_Forall. exact Hrest. }
  assert (Hfsrc : keep f = false).
  { unfold keep, f. now rewrite footer_is_source_line. }
  assert (Hlines : forall l, In l lines -> keep l = true).
  { intros l Hl. destruct (Hin l Hl) as (l0 & H0 & E0).
    unfold keep. rewrite (is_source_line_strip l l0 E0). now apply Hkeep. }
  unfold _strip_existing_source at 1. fold keep.
  assert (Er : rstrip (join NL lines ++ NL ++ py "Source:" ++ rest)
               = join NL lines ++ NL ++ f).
  { assert (H1 : rstrip (NL ++ py "Source:" ++ rest) = NL ++ f).
    { apply rstrip_app_keep. exact Hfne. }
    rewrite rstrip_app_keep; rewrite H1; [reflexivity | discriminate]. }
  rewrite Er.
  destruct Hlast as [-> | (init & y & -> & Hy)].
  - replace (join NL [] ++ NL ++ f) with (join NL ([[]] ++ [f]))
      by reflexivity.
    rewrite splitlines_join; [|repeat constructor|exact Hfnl|exact Hfne].
    simpl filter. rewrite Hfsrc. destruct (keep []); reflexivity.
  - rewrite <- join_snoc by (destruct init; discriminate).
    rewrite splitlines_join; [|exact Hnl|exact Hfnl|exact Hfne].
    rewrite filter_app. simpl filter. rewrite Hfsrc, app_nil_r.
    rewrite (filter_all keep _ Hlines). exact Hfix.
Qed.

Lemma join_citations_no_linebreak (citations : list str) :
  Forall no_linebreak citations -> no_linebreak (join (py "; ") citations).
Proof.
  intros H. apply join_Forall; [repeat constructor | exact H].
Qed.

(** C6 (amended). Answer finalization (drop every line whose trimmed
    lower-case form starts with [source:], then append the footer
    [Source: ] + the citations joined by [; ], or [Source: (none)]) is
    idempotent for every content string and every citation list none of
    whose labels contains a line boundary:
    [finalize (finalize x c) c = finalize x c]. *)
Theorem finalize_idempotent (x : str) (c : list str) :
  Forall no_linebreak c ->
  finalize lower (finalize lower x c) c = finalize lower x c.
Proof.
  intros Hc. unfold finalize at 1 3. f_equal.
  unfold finalize, source_footer. destruct c as [|l c].
  - change (NL ++ py "Source: (none)") with (NL ++ py "Source:" ++ py " (none)").
    apply strip_existing_source_footer. repeat constructor.
  - change (NL ++ py "Source: " ++ join (py "; ") (l :: c))
      with (NL ++ py "Source:" ++ (32%N :: join (py "; ") (l :: c))).
    apply strip_existing_source_footer.
    constructor; [reflexivity | now apply join_citations_no_linebreak].
Qed.

End FinalizeFacts.

Lemma lower_ascii_prefix_holds (p s : str) :
  forallb is_ascii p = true ->
  exists r, lower_ascii (p ++ s) = map ascii_lower p ++ r.
Proof.
  intros _. exists (lower_ascii s). unfold lower_ascii. apply map_app.
Qed.

Lemma finalize_idempotent_witness :
  let x := py "Rinse twice a day." ++ NL ++ py "source: made-up.md" in
  let c := [py "aftercare.md#rinsing"; py "faq.md"] in
  Forall no_linebreak c
  /\ finalize lower_ascii (finalize lower_ascii x c) c = finalize lower_ascii x c.
Proof.
  split.
  - repeat constructor.
  - apply (finalize_idempotent lower_ascii lower_ascii_prefix_holds).
    repeat constructor.
Defined.

(** C6, as stated, fails for a label that contains a line boundary: the
    second pass keeps the part of the footer after the boundary as a line
    of the answer. *)
Lemma finalize_not_idempotent_linebreak_label :
  let x := py "Hi" in
  let c := [py "A" ++ NL ++ py "B"] in
  finalize lower_ascii x c = py "Hi" ++ NL ++ py "Source: A" ++ NL ++ py "B"
  /\ finalize lower_ascii (finalize lower_ascii x c) c
     = py "Hi" ++ NL ++ py "B" ++ NL ++ py "Source: A" ++ NL ++ py "B"
  /\ finalize lower_ascii (finalize lower_ascii x c) c <> finalize lower_ascii x c.
Proof.
  vm_compute. repeat split. discriminate.
Qed.

(* ================================================================== *)
(** ** Citation labels *)

Lemma truthy_absent (v : option str) : truthy v = false <-> absent v.
Proof.
  unfold absent. destruct v as [[|c s]|]; simpl; split; auto;
    try discriminate; intros [H|H]; discriminate.
Qed.

(** C7 (amended). The citation label of a hit is ["unknown"] when the hit
    lacks a [doc_id] or its [doc_id] is empty; otherwise it is [doc_id]
    alone when [section] is absent, empty or equal to ["full"], and
    [doc_id#section] when [section] is present, not empty and different
    from ["full"]. In particular [doc_id "B"] with [section "full"] is
    labelled ["B"]. *)
Theorem label_cases (m : option Meta) :
  let did := meta_get m doc_id in
  let sec := meta_get m section in
  (absent did -> _label m = py "unknown")
  /\ (forall d, did = Some d -> d <> [] ->
        absent sec \/ sec = Some (py "full") -> _label m = d)
  /\ (forall d s, did = Some d -> d <> [] ->
        sec = Some s -> s <> [] -> s <> py "full" ->
        _label m = d ++ py "#" ++ s)
  /\ _label (Some (mkMeta (Some (py "B")) (Some (py "full")) None)) = py "B"
  /\ _label None = py "unknown".
Proof.
  intros did sec. unfold _label. fold did. fold sec.
  split; [|split; [|split; [|split; reflexivity]]].
  - intros H. apply truthy_absent in H. now rewrite H.
  - intros d Hd Hne Hsec. rewrite Hd.
    destruct d as [|c d]; [congruence|]. simpl negb. simpl or_empty at 2.
    destruct Hsec as [Hs | ->].
    + apply truthy_absent in Hs. now rewrite Hs.
    + reflexivity.
  - intros d s Hd Hne Hs Hsne Hfull. rewrite Hd, Hs.
    destruct d as [|c d]; [congruence|]. destruct s as [|c' s]; [congruence|].
    simpl truthy. simpl or_empty.
    apply str_eqb_neq in Hfull. now rewrite Hfull.
Qed.

(** C7, as stated, fails on empty fields, which [_label] tests by truth
    value: an empty [section] is present and is not ["full"], yet the label
    is the [doc_id] alone; an empty [doc_id] is present, yet the label is
    ["unknown"]. *)
Lemma label_empty_field_is_absent :
  _label (Some (mkMeta (Some (py "B")) (Some []) None)) = py "B"
  /\ _label (Some (mkMeta (Some (py "B")) (Some []) None))
     <> py "B" ++ py "#" ++ []
  /\ _label (Some (mkMeta (Some []) None None)) = py "unknown"
  /\ _label (Some (mkMeta (Some []) None None)) <> [].
Proof. repeat split; try reflexivity; vm_compute; discriminate. Qed.

(* ================================================================== *)
(** ** The citation extractor *)

Lemma collect_loop_out (hits : list Hit) :
  forall seen out, collect_loop seen out hits = out ++ collect_loop seen [] hits.
Proof.
  induction hits as [|h rest IH]; intros seen out; simpl.
  - now rewrite app_nil_r.
  - destruct (mem (_label (meta h)) seen).
    + apply IH.
    + rewrite IH. rewrite (IH _ [_label (meta h)]).
      now rewrite <- app_assoc.
Qed.

Lemma collect_loop_cons (h : Hit) (rest : list Hit) (seen : list str) :
  collect_loop seen [] (h :: rest)
  = if mem (_label (meta h)) seen then collect_loop seen [] rest
    else _label (meta h) :: collect_loop (_label (meta h) :: seen) [] rest.
Proof.
  simpl. destruct (mem (_label (meta h)) seen); [reflexivity|].
  apply (collect_loop_out rest _ [_label (meta h)]).
Qed.

Lemma collect_loop_In (hits : list Hit) :
  forall seen x,
    In x (collect_loop seen [] hits) <-> In x (labels_of hits) /\ ~ In x seen.
Proof.
  induction hits as [|h rest IH]; intros seen x.
  - simpl. tauto.
  - rewrite collect_loop_cons. simpl labels_of.
    destruct (mem (_label (meta h)) seen) eqn:E.
    + apply mem_In in E. rewrite IH. simpl. split.
      * tauto.
      * intros [[<-|H] Hn]; tauto.
    + apply mem_not_In in E. simpl. rewrite IH. simpl. split.
      * intros [<-|[H Hn]]; tauto.
      * intros [[<-|H] Hn]; [tauto|].
        destruct (str_eqb (_label (meta h)) x) eqn:Ex.
        -- apply str_eqb_eq in Ex. tauto.
        -- apply str_eqb_neq in Ex. right. tauto.
Qed.

Lemma collect_loop_NoDup (hits : list Hit) :
  forall seen, NoDup (collect_loop seen [] hits).
Proof.
  induction hits as [|h rest IH]; intros seen.
  - constructor.
  - rewrite collect_loop_cons. destruct (mem (_label (meta h)) seen).
    + apply IH.
    + constructor; [|apply IH].
      rewrite collect_loop_In. simpl. tauto.
Qed.

Lemma first_index_cons_neq (x y : str) (l : list str) :
  x <> y -> first_index x (y :: l) = S (first_index x l).
Proof. intros H. simpl. apply str_eqb_neq in H. now rewrite H. Qed.

Lemma collect_loop_order (hits : list Hit) :
  forall seen i j a b,
    nth_error (collect_loop seen [] hits) i = Some a ->
    nth_error (collect_loop seen [] hits) j = Some b ->
    (i < j)%nat ->
    (first_index a (labels_of hits) < first_index b (labels_of hits))%nat.
Proof.
  induction hits as [|h rest IH]; intros seen i j a b Ha Hb Hij.
  - destruct i; discriminate.
  - rewrite collect_loop_cons in Ha, Hb. simpl labels_of.
    destruct (mem (_label (meta h)) seen) eqn:E.
    + apply mem_In in E.
      assert (Ia := nth_error_In _ _ Ha). assert (Ib := nth_error_In _ _ Hb).
      apply collect_loop_In in Ia, Ib.
      rewrite !first_index_cons_neq by (intros ->; tauto).
      apply -> Nat.succ_lt_mono. now apply (IH seen i j).
    + destruct j as [|j]; [lia|]. simpl in Hb.
      assert (Ib := nth_error_In _ _ Hb). apply collect_loop_In in Ib.
      assert (Nb : b <> _label (meta h)) by (intros ->; simpl in Ib; tauto).
      rewrite (first_index_cons_neq b _ _ Nb).
      destruct i as [|i].
      * simpl in Ha. injection Ha as <-. simpl. rewrite str_eqb_refl. lia.
      * simpl in Ha.
        assert (Ia := nth_error_In _ _ Ha). apply collect_loop_In in Ia.
        assert (Na : a <> _label (meta h)) by (intros ->; simpl in Ia; tauto).
        rewrite (first_index_cons_neq a _ _ Na).
        apply -> Nat.succ_lt_mono.
        apply (IH (_label (meta h) :: seen) i j); [assumption..|lia].
Qed.

(** C8. For every evidence sequence the citation list holds pairwise
    distinct labels, exactly the labels of the evidence, ordered by the
    first occurrence of each label in that sequence. *)
Theorem collect_citations_first_occurrence (hits : list Hit) :
  let cs := _collect_citations hits in
  NoDup cs
  /\ (forall l, In l cs <-> In l (labels_of hits))
  /\ (forall i j a b,
        nth_error cs i = Some a -> nth_error cs j = Some b -> (i < j)%nat ->
        (first_index a (labels_of hits) < first_index b (labels_of hits))%nat).
Proof.
  unfold _collect_citations. split; [|split].
  - apply collect_loop_NoDup.
  - intros l. rewrite collect_loop_In. simpl. tauto.
  - apply collect_loop_order.
Qed.

(* ================================================================== *)
(** ** The hit normaliser: stable sort *)

Lemma insert_by_key_last (key : Hit -> bool) (h : Hit) (l : list Hit) :
  key h = true -> insert_by_key key h l = l ++ [h].
Proof.
  intros Hh. induction l as [|x l IH]; simpl; [reflexivity|].
  now rewrite Hh, implb_true_r, IH.
Qed.

Lemma insert_by_key_middle (key : Hit -> bool) (h : Hit) (front back : list Hit) :
  Forall (fun x => key x = false) front ->
  Forall (fun x => key x = true) back ->
  key h = false ->
  insert_by_key key h (front ++ back) = front ++ h :: back.
Proof.
  intros Hf Hb Hh. induction Hf as [|x front Hx Hf IH]; simpl.
  - destruct Hb as [|y back Hy Hb]; simpl; [reflexivity|].
    now rewrite Hy, Hh.
  - now rewrite Hx, Hh, IH.
Qed.

Lemma sort_fold_partition (key : Hit -> bool) (l : list Hit) :
  forall front back,
    Forall (fun x => key x = false) front ->
    Forall (fun x => key x = true) back ->
    fold_left (fun acc h => insert_by_key key h acc) l (front ++ back)
    = (front ++ filter (fun h => negb (key h)) l) ++ back ++ filter key l.
Proof.
  induction l as [|h l IH]; intros front back Hf Hb; simpl.
  - now rewrite !app_nil_r.
  - destruct (key h) eqn:Hh; simpl.
    + rewrite insert_by_key_last by exact Hh.
      rewrite <- app_assoc, (IH front (back ++ [h])); auto.
      * now rewrite <- (app_assoc back).
      * apply Forall_app. auto.
    + rewrite insert_by_key_middle by assumption.
      change (front ++ h :: back) with (front ++ [h] ++ back).
      rewrite app_assoc, (IH (front ++ [h]) back); auto.
      * now rewrite <- (app_assoc front).
      * apply Forall_app. auto.
Qed.

(** The sort of [_normalize_hits] puts the hits with an inline text first
    and keeps the input order within each group. *)
Lemma sort_by_key_stable (key : Hit -> bool) (l : list Hit) :
  sort_by_key key l = filter (fun h => negb (key h)) l ++ filter key l.
Proof. apply (sort_fold_partition key l [] []); constructor. Qed.

(** X26. The sort of [_normalize_hits] is a stable partition: the hits
    whose [text] is not [None], an empty text included, come first, then
    the hits whose [text] is [None], each group in its input order. *)
Theorem sort_puts_text_first (l : list Hit) :
  sort_by_key text_is_none l = filter has_text l ++ filter text_is_none l
  /\ has_text (mkHit (Some []) None) = true.
Proof. split; [apply sort_by_key_stable | reflexivity]. Qed.

(* ================================================================== *)
(** ** The hit normaliser: budget trim *)

Section NormalizeFacts.

Variable lower : str -> str.
Variable MAX_CTX_SNIPPETS : Z.
Variable MAX_CTX_CHARS : Z.

Local Notation "'trim'" := (trim_loop MAX_CTX_SNIPPETS MAX_CTX_CHARS).
Local Notation "'walk'" := (budget_walk MAX_CTX_SNIPPETS MAX_CTX_CHARS).
Local Notation "'normalize'" :=
  (_normalize_hits lower MAX_CTX_SNIPPETS MAX_CTX_CHARS).

Lemma budget_walk_full (admitted total : Z) (hits : list Hit) :
  MAX_CTX_SNIPPETS <= admitted -> walk admitted total hits = [].
Proof.
  intros H. destruct hits as [|h rest]; [reflexivity|]. simpl.
  apply Z.leb_le in H. now rewrite H.
Qed.

Lemma length_snoc (trimmed : list Hit) (h : Hit) :
  Z.of_nat (length (trimmed ++ [h])) = Z.of_nat (length trimmed) + 1.
Proof. rewrite length_app. simpl. lia. Qed.

(** The loop of the source, from any intermediate state, appends to what it
    has admitted what the walk of the design admits from there on. *)
Lemma trim_loop_walk (dedup : list Hit) :
  forall total trimmed,
    trim total trimmed dedup
    = trimmed ++ walk (Z.of_nat (length trimmed)) total dedup.
Proof.
  induction dedup as [|h rest IH]; intros total trimmed.
  - simpl. now rewrite app_nil_r.
  - cbn [trim_loop budget_walk].
    destruct (MAX_CTX_SNIPPETS <=? Z.of_nat (length trimmed)) eqn:Efull.
    + assert (El : (Z.of_nat (length trimmed) <? MAX_CTX_SNIPPETS) = false).
      { apply Z.ltb_ge. now apply Z.leb_le. }
      rewrite El. cbn [andb]. rewrite Efull. now rewrite app_nil_r.
    + assert (El : (Z.of_nat (length trimmed) <? MAX_CTX_SNIPPETS) = true).
      { apply Z.ltb_lt. now apply Z.leb_gt. }
      rewrite El. cbn [andb].
      destruct (total + len (hit_text h) <=? MAX_CTX_CHARS) eqn:Efit.
      * destruct (MAX_CTX_SNIPPETS <=? Z.of_nat (length (trimmed ++ [h]))) eqn:E2.
        -- rewrite budget_walk_full; [reflexivity|].
           apply Z.leb_le in E2. now rewrite length_snoc in E2.
        -- rewrite IH, length_snoc, <- app_assoc. reflexivity.
      * rewrite Efull. apply IH.
Qed.

(** C1. The budget trim of [normalize] walks the deduplicated sequence in
    order and admits a hit only if fewer than [MAX_CTX_SNIPPETS] hits have
    been admitted and the hit's text length (of [hit_text]: the inline
    text, else [meta.text], else the empty string, each passed over when
    empty) keeps the running total within [MAX_CTX_CHARS];
    a hit that would overflow is skipped without counting and the hits
    after it are still considered; the walk stops as soon as
    [MAX_CTX_SNIPPETS] hits have been admitted. That is, the loop of the
    source computes the walk written from the words of the design. *)
Theorem normalize_budget_trim :
  (forall dedup, trim 0 [] dedup = walk 0 0 dedup)
  /\ (forall hits, normalize hits = walk 0 0 (dedup_hits lower hits)).
Proof.
  split.
  - intros dedup. apply (trim_loop_walk dedup 0 []).
  - intros hits. unfold _normalize_hits. apply (trim_loop_walk _ 0 []).
Qed.

Lemma total_chars_snoc (trimmed : list Hit) (h : Hit) :
  total_chars (trimmed ++ [h]) = total_chars trimmed + len (hit_text h).
Proof.
  induction trimmed as [|x l IH]; simpl; [lia|].
  unfold total_chars in *. simpl. rewrite IH. lia.
Qed.

Lemma trim_loop_bounds (dedup : list Hit) :
  forall total trimmed,
    total = total_chars trimmed ->
    Z.of_nat (length trimmed) <= MAX_CTX_SNIPPETS ->
    total <= MAX_CTX_CHARS ->
    Z.of_nat (length (trim total trimmed dedup)) <= MAX_CTX_SNIPPETS
    /\ total_chars (trim total trimmed dedup) <= MAX_CTX_CHARS.
Proof.
  induction dedup as [|h rest IH]; intros total trimmed Htot Hlen Hchars.
  - simpl. subst. auto.
  - cbn [trim_loop].
    destruct ((Z.of_nat (length trimmed) <? MAX_CTX_SNIPPETS)
              && (total + len (hit_text h) <=? MAX_CTX_CHARS)) eqn:Efits.
    + apply andb_true_iff in Efits. destruct Efits as [El Efit].
      apply Z.ltb_lt in El. apply Z.leb_le in Efit.
      assert (Hlen' : Z.of_nat (length (trimmed ++ [h])) <= MAX_CTX_SNIPPETS)
        by (rewrite length_snoc; lia).
      assert (Htot' : total + len (hit_text h) = total_chars (trimmed ++ [h]))
        by (rewrite total_chars_snoc; lia).
      destruct (MAX_CTX_SNIPPETS <=? Z.of_nat (length (trimmed ++ [h]))).
      * split; [exact Hlen' | now rewrite <- Htot'].
      * now apply IH.
    + destruct (MAX_CTX_SNIPPETS <=? Z.of_nat (length trimmed)).
      * subst. auto.
      * now apply IH.
Qed.

(** C4 (amended). When the configured limits are not negative, for every
    input hit sequence the sequence returned by [normalize] has at most
    [MAX_CTX_SNIPPETS] elements and the sum of its elements' text lengths
    (inline text, else [meta.text], else the empty string) is at most
    [MAX_CTX_CHARS]. *)
Theorem normalize_within_budget (hits : list Hit) :
  0 <= MAX_CTX_SNIPPETS -> 0 <= MAX_CTX_CHARS ->
  Z.of_nat (length (normalize hits)) <= MAX_CTX_SNIPPETS
  /\ total_chars (normalize hits) <= MAX_CTX_CHARS.
Proof.
  intros Hs Hc. unfold _normalize_hits.
  apply trim_loop_bounds; simpl; auto.
Qed.

Lemma dedup_loop_out (filt : list Hit) :
  forall seen dedup, dedup_loop seen dedup filt = dedup ++ dedup_loop seen [] filt.
Proof.
  induction filt as [|h rest IH]; intros seen dedup; simpl.
  - now rewrite app_nil_r.
  - destruct (mem (_label (meta h)) seen).
    + apply IH.
    + rewrite IH, (IH _ [h]). now rewrite <- app_assoc.
Qed.

(** The dedup loop keeps the hits whose labels the citation loop keeps. *)
Lemma dedup_loop_labels (filt : list Hit) :
  forall seen, labels_of (dedup_loop seen [] filt) = collect_loop seen [] filt.
Proof.
  induction filt as [|h rest IH]; intros seen; [reflexivity|].
  rewrite collect_loop_cons. simpl.
  destruct (mem (_label (meta h)) seen); [apply IH|].
  rewrite (dedup_loop_out rest _ [h]). simpl. now rewrite IH.
Qed.

Lemma budget_walk_labels (hits : list Hit) :
  forall admitted total,
    NoDup (labels_of hits) ->
    NoDup (labels_of (walk admitted total hits))
    /\ incl (labels_of (walk admitted total hits)) (labels_of hits).
Proof.
  induction hits as [|h rest IH]; intros admitted total Hnd; simpl.
  - split; [constructor | apply incl_refl].
  - inversion Hnd as [|? ? Hnotin Hrest]; subst.
    destruct (MAX_CTX_SNIPPETS <=? admitted).
    + split; [constructor | apply incl_nil_l].
    + destruct (total + len (hit_text h) <=? MAX_CTX_CHARS).
      * destruct (IH (admitted + 1) (total + len (hit_text h)) Hrest)
          as [Hn Hi].
        simpl. split.
        -- constructor; [|exact Hn]. intros Hin. apply Hnotin, Hi, Hin.
        -- apply incl_cons; [now left | now apply incl_tl].
      * destruct (IH admitted total Hrest) as [Hn Hi].
        split; [exact Hn | now apply incl_tl].
Qed.

Lemma collect_loop_distinct (hits : list Hit) :
  forall seen,
    NoDup (labels_of hits) ->
    (forall l, In l (labels_of hits) -> ~ In l seen) ->
    collect_loop seen [] hits = labels_of hits.
Proof.
  induction hits as [|h rest IH]; intros seen Hnd Hdis; [reflexivity|].
  rewrite collect_loop_cons. simpl labels_of.
  inversion Hnd as [|? ? Hnotin Hrest]; subst.
  assert (E : mem (_label (meta h)) seen = false).
  { apply mem_not_In, Hdis. now left. }
  rewrite E. f_equal. apply IH; [exact Hrest|].
  intros l Hl [<-|Hs]; [contradiction|].
  apply (Hdis l); [now right | exact Hs].
Qed.

(** The evidence [normalize] returns has pairwise distinct labels, so its
    citations are its labels, one per hit and in the order of the hits. *)
Lemma normalize_citations (hits : list Hit) :
  NoDup (labels_of (normalize hits))
  /\ _collect_citations (normalize hits) = labels_of (normalize hits).
Proof.
  assert (Hnd : NoDup (labels_of (normalize hits))).
  { unfold _normalize_hits. rewrite trim_loop_walk. simpl app.
    apply budget_walk_labels. unfold dedup_hits.
    rewrite dedup_loop_labels. apply collect_loop_NoDup. }
  split; [exact Hnd|].
  apply collect_loop_distinct; [exact Hnd | intros l _ []].
Qed.

(* ------------------------------------------------------------------ *)
(** *** Further properties of the normaliser *)

Lemma subseq_refl (l : list Hit) : subseq l l.
Proof. induction l; constructor; assumption. Qed.

Lemma subseq_In (sub l : list Hit) :
  subseq sub l -> forall h, In h sub -> In h l.
Proof.
  induction 1 as [|x sub l _ IH|x sub l _ IH]; intros h Hh.
  - exact Hh.
  - right. now apply IH.
  - destruct Hh as [<-|Hh]; [now left | right; now apply IH].
Qed.

Lemma subseq_trans (a b c : list Hit) : subseq a b -> subseq b c -> subseq a c.
Proof.
  intros Hab Hbc. revert a Hab.
  induction Hbc as [|x b c _ IH|x b c _ IH]; intros a Hab.
  - exact Hab.
  - constructor. now apply IH.
  - inversion Hab; subst; constructor; now apply IH.
Qed.

Lemma subseq_app_inv (a b : list Hit) :
  forall sub, subseq sub (a ++ b) ->
    exists s1 s2, sub = s1 ++ s2 /\ subseq s1 a /\ subseq s2 b.
Proof.
  induction a as [|x a IH]; intros sub H.
  - exists [], sub. repeat split; [constructor | exact H].
  - simpl in H. inversion H; subst.
    + destruct (IH _ H2) as (s1 & s2 & -> & H1 & H2').
      exists s1, s2. repeat split; [now constructor | exact H2'].
    + destruct (IH _ H2) as (s1 & s2 & -> & H1 & H2').
      exists (x :: s1), s2. repeat split; [now constructor | exact H2'].
Qed.

Lemma filter_none {A : Type} (f : A -> bool) (l : list A) :
  (forall x, In x l -> f x = false) -> filter f l = [].
Proof.
  induction l as [|a l IH]; intros H; simpl; [reflexivity|].
  rewrite (H a (or_introl eq_refl)). apply IH.
  intros y Hy. apply H. now right.
Qed.

Lemma dedup_loop_cons (h : Hit) (rest : list Hit) (seen : list str) :
  dedup_loop seen [] (h :: rest)
  = if mem (_label (meta h)) seen then dedup_loop seen [] rest
    else h :: dedup_loop (_label (meta h) :: seen) [] rest.
Proof.
  simpl. destruct (mem (_label (meta h)) seen); [reflexivity|].
  apply (dedup_loop_out rest _ [h]).
Qed.

Lemma dedup_loop_subseq (filt : list Hit) :
  forall seen, subseq (dedup_loop seen [] filt) filt.
Proof.
  induction filt as [|h rest IH]; intros seen; [constructor|].
  rewrite dedup_loop_cons.
  destruct (mem (_label (meta h)) seen); constructor; apply IH.
Qed.

Lemma budget_walk_subseq (hits : list Hit) :
  forall admitted total, subseq (walk admitted total hits) hits.
Proof.
  induction hits as [|h rest IH]; intros admitted total; simpl; [constructor|].
  destruct (MAX_CTX_SNIPPETS <=? admitted).
  - clear IH. constructor. induction rest; constructor; assumption.
  - destruct (total + len (hit_text h) <=? MAX_CTX_CHARS);
      constructor; apply IH.
Qed.

Lemma sort_by_key_In (key : Hit -> bool) (l : list Hit) (h : Hit) :
  In h (sort_by_key key l) <-> In h l.
Proof.
  rewrite sort_by_key_stable, in_app_iff, !filter_In.
  destruct (key h); simpl; intuition congruence.
Qed.

Lemma normalize_subseq (hits : list Hit) :
  subseq (normalize hits)
    (sort_by_key text_is_none (filter_noise lower hits)).
Proof.
  unfold _normalize_hits. rewrite trim_loop_walk. simpl app.
  eapply subseq_trans; [apply budget_walk_subseq|].
  unfold dedup_hits. apply dedup_loop_subseq.
Qed.

Lemma normalize_selects_input_hits_aux (hits : list Hit) (h : Hit) :
  In h (normalize hits) -> negb (is_recent_query lower h) = true.
Proof.
  intros Hh. apply (subseq_In _ _ (normalize_subseq hits)) in Hh.
  apply sort_by_key_In in Hh. unfold filter_noise in Hh.
  apply filter_In in Hh. tauto.
Qed.

(** X1. Every hit [normalize] returns is a hit of its input that the noise
    filter lets through: nothing is invented or altered, and no hit whose
    lower-cased [doc_id] starts with [recent_queries.jsonl] is returned;
    the hits returned keep the order of the sorted, filtered input. *)
Theorem normalize_selects_input_hits (hits : list Hit) :
  subseq (normalize hits)
    (sort_by_key text_is_none (filter_noise lower hits))
  /\ forall h, In h (normalize hits) ->
       In h hits /\ is_recent_query lower h = false.
Proof.
  split; [apply normalize_subseq|].
  intros h Hh. apply (subseq_In _ _ (normalize_subseq hits)) in Hh.
  apply sort_by_key_In in Hh. unfold filter_noise in Hh.
  apply filter_In in Hh. destruct Hh as [Hin Hn].
  split; [exact Hin|]. now destruct (is_recent_query lower h).
Qed.

Lemma partition_by_key (key : Hit -> bool) (front back : list Hit) :
  Forall (fun x => key x = false) front ->
  Forall (fun x => key x = true) back ->
  filter (fun h => negb (key h)) (front ++ back) = front
  /\ filter key (front ++ back) = back.
Proof.
  intros Hf Hb. rewrite !filter_app. split.
  - rewrite filter_all, filter_none; [apply app_nil_r| |].
    + intros x Hx. rewrite Forall_forall in Hb. now rewrite (Hb x Hx).
    + intros x Hx. rewrite Forall_forall in Hf. now rewrite (Hf x Hx).
  - rewrite filter_none, filter_all; [reflexivity| |].
    + intros x Hx. rewrite Forall_forall in Hb. exact (Hb x Hx).
    + intros x Hx. rewrite Forall_forall in Hf. exact (Hf x Hx).
Qed.

Lemma normalize_partitioned (hits : list Hit) :
  exists front back,
    normalize hits = front ++ back
    /\ Forall (fun x => text_is_none x = false) front
    /\ Forall (fun x => text_is_none x = true) back.
Proof.
  assert (H := normalize_subseq hits). rewrite sort_by_key_stable in H.
  apply subseq_app_inv in H. destruct H as (s1 & s2 & E & H1 & H2).
  exists s1, s2. split; [exact E|]. split; apply Forall_forall; intros x Hx.
  - apply (subseq_In _ _ H1), filter_In in Hx. destruct Hx as [_ Hx].
    now destruct (text_is_none x).
  - apply (subseq_In _ _ H2), filter_In in Hx. tauto.
Qed.

(** X2. In the evidence [normalize] returns, the hits whose [text] is not
    [None] come before the hits whose [text] is [None]: the evidence is its
    own with-text part followed by its own without-text part. *)
Theorem normalize_text_first (hits : list Hit) :
  normalize hits
  = filter has_text (normalize hits) ++ filter text_is_none (normalize hits).
Proof.
  destruct (normalize_partitioned hits) as (front & back & E & Hf & Hb).
  rewrite E at 2 3.
  destruct (partition_by_key text_is_none front back Hf Hb) as [E1 E2].
  unfold has_text. now rewrite E1, E2.
Qed.

Lemma dedup_loop_first (filt : list Hit) :
  forall seen h,
    In h (dedup_loop seen [] filt) ->
    ~ In (_label (meta h)) seen
    /\ first_with_label (_label (meta h)) filt = Some h.
Proof.
  induction filt as [|x rest IH]; intros seen h Hh; [destruct Hh|].
  rewrite dedup_loop_cons in Hh. unfold first_with_label. simpl find.
  destruct (mem (_label (meta x)) seen) eqn:E.
  - apply mem_In in E. destruct (IH seen h Hh) as [Hn Hf].
    split; [exact Hn|].
    assert (N : str_eqb (_label (meta x)) (_label (meta h)) = false).
    { apply str_eqb_neq. intros Eq. apply Hn. now rewrite <- Eq. }
    rewrite N. exact Hf.
  - apply mem_not_In in E. destruct Hh as [<-|Hh].
    + split; [exact E|]. now rewrite str_eqb_refl.
    + destruct (IH _ h Hh) as [Hn Hf]. split.
      * intros Hs. apply Hn. now right.
      * assert (N : str_eqb (_label (meta x)) (_label (meta h)) = false).
        { apply str_eqb_neq. intros Eq. apply Hn. now left. }
        rewrite N. exact Hf.
Qed.

(** X3. Of the hits that share a label, [normalize] can only return the
    one that comes first once the noise is filtered out and the hits with
    a text are moved to the front: later hits of the label are dropped even
    if their content differs, and a hit with a text wins over an earlier
    hit of the same label without one. *)
Theorem normalize_first_of_each_label (hits : list Hit) (h : Hit) :
  In h (normalize hits) ->
  first_with_label (_label (meta h))
    (sort_by_key text_is_none (filter_noise lower hits)) = Some h.
Proof.
  intros Hh. unfold _normalize_hits in Hh. rewrite trim_loop_walk in Hh.
  simpl app in Hh. apply (subseq_In _ _ (budget_walk_subseq _ _ _)) in Hh.
  unfold dedup_hits in Hh. now apply dedup_loop_first in Hh.
Qed.

Lemma dedup_loop_distinct (hits : list Hit) :
  forall seen,
    NoDup (labels_of hits) ->
    (forall l, In l (labels_of hits) -> ~ In l seen) ->
    dedup_loop seen [] hits = hits.
Proof.
  induction hits as [|h rest IH]; intros seen Hnd Hdis; [reflexivity|].
  rewrite dedup_loop_cons.
  inversion Hnd as [|? ? Hnotin Hrest]; subst.
  assert (E : mem (_label (meta h)) seen = false).
  { apply mem_not_In, Hdis. now left. }
  rewrite E. f_equal. apply IH; [exact Hrest|].
  intros l Hl [<-|Hs]; [contradiction|].
  apply (Hdis l); [now right | exact Hs].
Qed.

Lemma budget_walk_idem (hits : list Hit) :
  forall admitted total,
    walk admitted total (walk admitted total hits) = walk admitted total hits.
Proof.
  induction hits as [|h rest IH]; intros admitted total; [reflexivity|].
  cbn [budget_walk].
  destruct (MAX_CTX_SNIPPETS <=? admitted) eqn:Efull; [reflexivity|].
  destruct (total + len (hit_text h) <=? MAX_CTX_CHARS) eqn:Efit.
  - cbn [budget_walk]. rewrite Efull, Efit. f_equal. apply IH.
  - apply IH.
Qed.

(** X4. [normalize] is idempotent: normalising the evidence it returned
    gives that evidence back, whatever the limits. *)
Theorem normalize_idempotent (hits : list Hit) :
  normalize (normalize hits) = normalize hits.
Proof.
  set (ev := normalize hits).
  assert (Hf : filter_noise lower ev = ev).
  { apply filter_all. intros h Hh.
    apply (normalize_selects_input_hits_aux hits) in Hh. now rewrite Hh. }
  assert (Hs : sort_by_key text_is_none ev = ev).
  { rewrite sort_by_key_stable.
    destruct (normalize_partitioned hits) as (front & back & E & Hfr & Hb).
    fold ev in E. rewrite E.
    destruct (partition_by_key text_is_none front back Hfr Hb) as [E1 E2].
    now rewrite E1, E2. }
  assert (Hd : dedup_hits lower ev = ev).
  { unfold dedup_hits. rewrite Hf, Hs.
    apply dedup_loop_distinct; [apply normalize_citations | intros l _ []]. }
  unfold _normalize_hits at 1. rewrite Hd, trim_loop_walk. simpl app.
  unfold ev, _normalize_hits. rewrite trim_loop_walk. simpl app.
  apply budget_walk_idem.
Qed.

(** X5. The evidence [normalize] returns has pairwise distinct labels, so
    the citation list of the evidence is the list of its labels: one
    citation per evidence hit, in the order of the hits. *)
Theorem normalize_one_citation_per_hit (hits : list Hit) :
  NoDup (labels_of (normalize hits))
  /\ _collect_citations (normalize hits) = labels_of (normalize hits)
  /\ length (_collect_citations (normalize hits)) = length (normalize hits).
Proof.
  destruct (normalize_citations hits) as [Hnd E].
  split; [exact Hnd|]. split; [exact E|].
  rewrite E. apply length_map.
Qed.

Lemma hit_len_nonneg (h : Hit) : 0 <= len (hit_text h).
Proof. unfold len. lia. Qed.

Lemma total_chars_nonneg (hits : list Hit) : 0 <= total_chars hits.
Proof.
  induction hits as [|h l IH]; simpl; [lia|].
  assert (H := hit_len_nonneg h). unfold total_chars in *. simpl. lia.
Qed.

Lemma budget_walk_no_chars (hits : list Hit) :
  forall admitted total,
    MAX_CTX_CHARS < 0 -> 0 <= total -> walk admitted total hits = [].
Proof.
  induction hits as [|h rest IH]; intros admitted total Hneg Ht; [reflexivity|].
  simpl. destruct (MAX_CTX_SNIPPETS <=? admitted); [reflexivity|].
  assert (H := hit_len_nonneg h).
  assert (E : (total + len (hit_text h) <=? MAX_CTX_CHARS) = false)
    by (apply Z.leb_gt; lia).
  rewrite E. now apply IH.
Qed.

(** X6. With a snippet limit of zero or less, or a negative character
    budget, [normalize] returns no evidence at all, whatever the hits. *)
Theorem normalize_empty_without_budget (hits : list Hit) :
  MAX_CTX_SNIPPETS <= 0 \/ MAX_CTX_CHARS < 0 -> normalize hits = [].
Proof.
  intros H. unfold _normalize_hits. rewrite trim_loop_walk. simpl app.
  destruct H as [H|H].
  - now apply budget_walk_full.
  - apply budget_walk_no_chars; [exact H | lia].
Qed.

Lemma budget_walk_all (hits : list Hit) :
  forall admitted total,
    0 <= total ->
    admitted + Z.of_nat (length hits) <= MAX_CTX_SNIPPETS ->
    total + total_chars hits <= MAX_CTX_CHARS ->
    walk admitted total hits = hits.
Proof.
  induction hits as [|h rest IH]; intros admitted total Ht Hn Hc; [reflexivity|].
  simpl in Hn. assert (Hh := hit_len_nonneg h).
  assert (Hr := total_chars_nonneg rest).
  assert (Hc' : total + (len (hit_text h) + total_chars rest) <= MAX_CTX_CHARS)
    by exact Hc.
  simpl.
  assert (E1 : (MAX_CTX_SNIPPETS <=? admitted) = false) by (apply Z.leb_gt; lia).
  assert (E2 : (total + len (hit_text h) <=? MAX_CTX_CHARS) = true)
    by (apply Z.leb_le; lia).
  rewrite E1, E2. f_equal. apply IH; lia.
Qed.

(** X7. When the deduplicated hits are within both limits, no more of
    them than [MAX_CTX_SNIPPETS] and no more text than [MAX_CTX_CHARS], the
    budget trim drops nothing: [normalize] returns all of them. *)
Theorem normalize_keeps_all_within_budget (hits : list Hit) :
  Z.of_nat (length (dedup_hits lower hits)) <= MAX_CTX_SNIPPETS ->
  total_chars (dedup_hits lower hits) <= MAX_CTX_CHARS ->
  normalize hits = dedup_hits lower hits.
Proof.
  intros Hn Hc. unfold _normalize_hits. rewrite trim_loop_walk. simpl app.
  apply budget_walk_all; simpl; lia.
Qed.

End NormalizeFacts.

Lemma normalize_within_budget_witness :
  0 <= 3 /\ 0 <= 2400
  /\ Z.of_nat (length (_normalize_hits lower_ascii 3 2400 sample_hits)) <= 3
  /\ total_chars (_normalize_hits lower_ascii 3 2400 sample_hits) <= 2400.
Proof.
  split; [lia|]. split; [lia|].
  apply (normalize_within_budget lower_ascii 3 2400 sample_hits); lia.
Defined.

(** C4, as stated, fails when a limit is configured negative: the result
    is empty, and neither its length nor its total is below zero. *)
Lemma normalize_exceeds_negative_limit :
  ~ (Z.of_nat (length (_normalize_hits lower_ascii (-1) 2400 [])) <= -1)
  /\ ~ (total_chars (_normalize_hits lower_ascii 3 (-1) []) <= -1).
Proof. split; vm_compute; intros H; apply H; reflexivity. Qed.

(** The example of the design: the noise hit is dropped, the other one is
    the evidence and gives the citation [A#intro]. *)
Example normalize_sample :
  _normalize_hits lower_ascii 3 2400 sample_hits
  = [mkHit (Some (py "hello"))
       (Some (mkMeta (Some (py "A")) (Some (py "intro")) None))]
  /\ _collect_citations (_normalize_hits lower_ascii 3 2400 sample_hits)
     = [py "A#intro"].
Proof. split; reflexivity. Qed.

(** The order-dependent policy on four hits of 3, 4, 1 and 1 characters
    with two snippets and five characters allowed: the second overflows
    and is skipped, the third is taken, the fourth would fit and is not. *)
Example trim_order_dependent :
  let hit s := mkHit (Some (py s)) None in
  trim_loop 2 5 0 []
    [hit "abc"%string; hit "defg"%string; hit "h"%string; hit "i"%string]
  = [hit "abc"%string; hit "h"%string].
Proof. reflexivity. Qed.

(* ================================================================== *)
(** ** Clamping of the sampling parameters *)

Lemma float_ltb_leb (a b : float) :
  PrimFloat.ltb a b = true -> PrimFloat.leb a b = true.
Proof.
  rewrite ltb_spec, leb_spec. unfold SFltb, SFleb.
  destruct (SFcompare (Prim2SF a) (Prim2SF b)) as [[]|]; easy.
Qed.

Lemma float_not_above_half (f : float) :
  PrimFloat.ltb 0%float f = true ->
  PrimFloat.ltb 0.5%float f = false ->
  PrimFloat.leb f 0.5%float = true.
Proof.
  rewrite !ltb_spec, leb_spec.
  change (Prim2SF 0%float) with (S754_zero false).
  change (Prim2SF 0.5%float) with (S754_finite false 4503599627370496 (-53)).
  unfold SFltb, SFleb, SFcompare.
  destruct (Prim2SF f) as [s|s| |s m e]; try discriminate.
  - destruct s; discriminate.
  - destruct s; [discriminate|]. intros _.
    rewrite (Z.compare_antisym e (-53)).
    destruct (e ?= -53)%Z; cbn [CompOpp]; try easy.
    assert (H := Pos.compare_cont_antisym m 4503599627370496 Eq).
    cbn [CompOpp] in H. rewrite <- H.
    destruct (Pos.compare_cont Eq m 4503599627370496); easy.
Qed.

Lemma clamp_temperature_in_range (t : float) :
  temperature_in_range (clamp_temperature t).
Proof.
  unfold temperature_in_range, clamp_temperature, float_max, float_min.
  destruct (PrimFloat.ltb 0.5%float t) eqn:Ehigh.
  - split; reflexivity.
  - destruct (PrimFloat.ltb 0%float t) eqn:Elow.
    + split; [now apply float_ltb_leb | now apply float_not_above_half].
    + split; reflexivity.
Qed.

Lemma clamp_max_tokens_le (n : Z) : clamp_max_tokens n <= 256.
Proof. unfold clamp_max_tokens, int_min. destruct (256 <? n) eqn:E; lia. Qed.

Lemma clamp_max_tokens_id (n : Z) : n <= 256 -> clamp_max_tokens n = n.
Proof. unfold clamp_max_tokens, int_min. destruct (256 <? n) eqn:E; lia. Qed.

(* ================================================================== *)
(** ** The handlers *)

Lemma extract_content_dict (data c : json) :
  extract_content data = Ok c -> exists kv, data = JDict kv.
Proof.
  destruct data; try discriminate. intros _. now eexists.
Qed.

Section HandlerFacts.

Variable lower : str -> str.
Variable MAX_CTX_SNIPPETS : Z.
Variable MAX_CTX_CHARS : Z.
Variable MODEL_NAME : str.
Variable build_messages : str -> list Hit -> list Message.
Variable py_float : json -> result float.
Variable round3 : float -> float.
Variable w : World.

Local Notation "'chat_'" :=
  (chat lower MAX_CTX_SNIPPETS MAX_CTX_CHARS MODEL_NAME build_messages
     py_float round3 w).
Local Notation "'dryrun_'" :=
  (dryrun lower MAX_CTX_SNIPPETS MAX_CTX_CHARS build_messages w).
Local Notation "'normalize'" :=
  (_normalize_hits lower MAX_CTX_SNIPPETS MAX_CTX_CHARS).
Local Notation "'payload_of' req raw" :=
  (chat_payload MODEL_NAME req
     (build_messages (ChatRequest.question req) (normalize raw)))
  (at level 10, req at level 9, raw at level 9).

(** The gauge update never fails and touches the three gauges only. *)
Lemma update_token_gauges_run (usage : json) (st : State) :
  exists p c t,
    update_token_gauges py_float usage st
    = (Ok tt, mkState (REQS st) (ERRS st) (E2E_LAT st) (RAG_LAT st)
                (VLLM_LAT st) p c t (now st) (outbox st)).
Proof.
  unfold update_token_gauges, except_pass, bind, lift, set_TOK_PROMPT,
    set_TOK_COMPLETION, set_TOK_TOTAL, modify.
  destruct st as [reqs errs e2e rag vllm tp tc tt n out]; simpl.
  destruct (usage_float py_float usage (py "prompt_tokens")); [|eauto].
  destruct (usage_float py_float usage (py "completion_tokens")); [|eauto].
  destruct (usage_float py_float usage (py "total_tokens")); eauto.
Qed.

(** Symbolic execution of a handler: unfold the monad, then split on what
    the services return and on each look-up that can raise. *)
Ltac run :=
  cbv beta iota zeta delta
    [chat dryrun retrieve generate bind ret lift finally except_reraise
     modify time_time post_completions inc_REQS inc_ERRS observe_E2E_LAT
     observe_RAG_LAT observe_VLLM_LAT posted_since fst snd REQS ERRS
     E2E_LAT RAG_LAT VLLM_LAT TOK_PROMPT TOK_COMPLETION TOK_TOTAL now outbox].

Ltac split_outcome :=
  match goal with
  | |- context [search ?w ?q ?k] => destruct (search w q k) eqn:?
  | |- context [completions ?w ?p] => destruct (completions w p) eqn:?
  | |- context [extract_content ?d] => destruct (extract_content d) eqn:?
  | |- context [dict_get ?d ?k ?v] => destruct (dict_get d k v) eqn:?
  | |- context [as_str ?c] => destruct (as_str c) eqn:?
  | |- context [update_token_gauges _ ?u ?s] =>
      let E := fresh "E" in
      destruct (update_token_gauges_run u s) as (? & ? & ? & E); rewrite E
  end; run.

Ltac chat_cases := run; repeat split_outcome.

(** What [chat] posts to the generation backend: nothing when retrieval
    fails, otherwise the one payload built from the normalised evidence. *)
Lemma chat_posted (req : ChatRequest.t) (st : State) :
  posted_since st (snd (chat_ req st))
  = match search w (ChatRequest.question req) (ChatRequest.k req) with
    | Ok raw => [payload_of req raw]
    | Raise _ => []
    end.
Proof.
  destruct st as [reqs errs e2e rag vllm tp tc tt n out].
  chat_cases;
    rewrite ?skipn_app, ?skipn_all, ?Nat.sub_diag; reflexivity.
Qed.

(** C5. Whatever the caller supplies, the temperature of the payload
    [chat] sends to the generation backend lies in [0.0, 0.5] and its
    [max_tokens] does not exceed 256; a request with [temperature=0.9] and
    [max_tokens=500] gives [temperature=0.5] and [max_tokens=256]. *)
Theorem chat_payload_clamped (req : ChatRequest.t) (st : State) :
  Forall (fun p => temperature_in_range (Payload.temperature p)
                   /\ Payload.max_tokens p <= 256)
    (posted_since st (snd (chat_ req st)))
  /\ (forall messages,
        temperature_in_range
          (Payload.temperature (chat_payload MODEL_NAME req messages))
        /\ Payload.max_tokens (chat_payload MODEL_NAME req messages) <= 256)
  /\ (forall q k dbg messages,
        let p := chat_payload MODEL_NAME
                   (ChatRequest.mk q k 500 0.9%float dbg) messages in
        Payload.temperature p = 0.5%float /\ Payload.max_tokens p = 256).
Proof.
  assert (H : forall messages,
             temperature_in_range
               (Payload.temperature (chat_payload MODEL_NAME req messages))
             /\ Payload.max_tokens (chat_payload MODEL_NAME req messages) <= 256).
  { intros messages. split.
    - apply clamp_temperature_in_range.
    - apply clamp_max_tokens_le. }
  split; [|split; [exact H|]].
  - rewrite chat_posted.
    destruct (search w (ChatRequest.question req) (ChatRequest.k req));
      repeat constructor; apply H.
  - intros q k dbg messages. split; reflexivity.
Qed.

(** C10. For a request whose [max_tokens] is at most 256, zero and
    negative values included, the payload [chat] sends carries the
    caller's [max_tokens] unchanged: the clamp has no lower bound. *)
Theorem chat_max_tokens_below_cap (req : ChatRequest.t) (st : State) :
  ChatRequest.max_tokens req <= 256 ->
  Forall (fun p => Payload.max_tokens p = ChatRequest.max_tokens req)
    (posted_since st (snd (chat_ req st)))
  /\ forall messages,
       Payload.max_tokens (chat_payload MODEL_NAME req messages)
       = ChatRequest.max_tokens req.
Proof.
  intros Hle.
  assert (H : forall messages,
             Payload.max_tokens (chat_payload MODEL_NAME req messages)
             = ChatRequest.max_tokens req).
  { intros messages. now apply clamp_max_tokens_id. }
  split; [|exact H].
  rewrite chat_posted.
  destruct (search w (ChatRequest.question req) (ChatRequest.k req));
    repeat constructor; apply H.
Qed.

(** C3 on the code. The two stage latencies are observed in [finally]
    clauses, the end-to-end latency by a plain statement behind the last
    stage. So when retrieval fails, [chat] raises with the retrieval
    latency recorded and no end-to-end latency; when the request to the
    generation backend fails, it raises with both stage latencies recorded
    and no end-to-end latency; only a run that returns a response has
    recorded the end-to-end latency. *)
Theorem chat_failure_skips_end_to_end_latency (req : ChatRequest.t)
    (st : State) :
  let st' := snd (chat_ req st) in
  (forall e,
     search w (ChatRequest.question req) (ChatRequest.k req) = Raise e ->
     fst (chat_ req st) = Raise e
     /\ RAG_LAT st'
        = RAG_LAT st
          ++ [PrimFloat.sub (clock w (2 + now st)) (clock w (1 + now st))]
     /\ VLLM_LAT st' = VLLM_LAT st
     /\ E2E_LAT st' = E2E_LAT st)
  /\ (forall raw e,
        search w (ChatRequest.question req) (ChatRequest.k req) = Ok raw ->
        completions w (payload_of req raw) = Raise e ->
        fst (chat_ req st) = Raise e
        /\ RAG_LAT st'
           = RAG_LAT st
             ++ [PrimFloat.sub (clock w (2 + now st)) (clock w (1 + now st))]
        /\ VLLM_LAT st'
           = VLLM_LAT st
             ++ [PrimFloat.sub (clock w (4 + now st)) (clock w (3 + now st))]
        /\ E2E_LAT st' = E2E_LAT st)
  /\ (forall resp,
        fst (chat_ req st) = Ok resp ->
        E2E_LAT st'
        = E2E_LAT st
          ++ [PrimFloat.sub (clock w (5 + now st)) (clock w (now st))]).
Proof.
  destruct st as [reqs errs e2e rag vllm tp tc tt n out]. cbv zeta.
  split; [|split].
  - intros e Hs. run. rewrite Hs. run. repeat split.
  - intros raw e Hs Hc. run. rewrite Hs. run. rewrite Hc. run. repeat split.
  - intros resp. chat_cases; intros H; try discriminate H. reflexivity.
Qed.

(** A failure of the request to the generation backend is counted under
    the stage [vllm]. *)
Lemma chat_generation_failure_counted (req : ChatRequest.t) (st : State)
    (raw : list Hit) (e : exn) :
  search w (ChatRequest.question req) (ChatRequest.k req) = Ok raw ->
  completions w (payload_of req raw) = Raise e ->
  fst (chat_ req st) = Raise e
  /\ ERRS (snd (chat_ req st)) = inc (ERRS st) (py "vllm").
Proof.
  intros Hs Hc. destruct st as [reqs errs e2e rag vllm tp tc tt n out].
  run. rewrite Hs. run. rewrite Hc. run. split; reflexivity.
Qed.

(** C2 on the code. A body of the generation backend without the shape
    [{choices: [{message: {content}}]}] makes [chat] fail with the error of
    the look-up, after the guarded block of the generation stage: the
    error counters are left as they were, the generation latency is
    recorded, the end-to-end latency is not. *)
Theorem chat_malformed_completion_not_counted (req : ChatRequest.t)
    (st : State) (raw : list Hit) (data : json) (e : exn) :
  search w (ChatRequest.question req) (ChatRequest.k req) = Ok raw ->
  completions w (payload_of req raw) = Ok data ->
  extract_content data = Raise e ->
  fst (chat_ req st) = Raise e
  /\ ERRS (snd (chat_ req st)) = ERRS st
  /\ length (VLLM_LAT (snd (chat_ req st))) = S (length (VLLM_LAT st))
  /\ E2E_LAT (snd (chat_ req st)) = E2E_LAT st.
Proof.
  intros Hs Hc He. destruct st as [reqs errs e2e rag vllm tp tc tt n out].
  run. rewrite Hs. run. rewrite Hc. run. rewrite He. run.
  repeat split. rewrite length_app. simpl. lia.
Qed.

(** C9. Given the same retrieval response, [dryrun] returns the messages
    and citations that [chat] computes for the same question and [k]: the
    messages [chat] posts to the generation backend are those of [dryrun],
    [chat] returns a response whenever the backend's reply holds a string
    content, and with [debug=true] every response of [chat] carries the
    citations and, in its debug payload, the messages of [dryrun]. *)
Theorem dryrun_chat_same_messages_citations (q : str) (k max_tokens : Z)
    (temperature : float) (raw : list Hit) (st1 st2 : State) :
  search w q k = Ok raw ->
  let req := ChatRequest.mk q k max_tokens temperature true in
  exists d,
    fst (dryrun_ q k st1) = Ok d
    /\ map Payload.messages (posted_since st2 (snd (chat_ req st2)))
       = [DryrunResponse.messages d]
    /\ (forall data s,
          completions w (payload_of req raw) = Ok data ->
          extract_content data = Ok (JStr s) ->
          exists resp, fst (chat_ req st2) = Ok resp)
    /\ (forall resp,
          fst (chat_ req st2) = Ok resp ->
          ChatResponse.citations resp = DryrunResponse.citations d
          /\ exists dbg,
               ChatResponse.debug resp = Some dbg
               /\ Debug.messages dbg = DryrunResponse.messages d).
Proof.
  intros Hs. cbv zeta.
  exists (DryrunResponse.mk q (_collect_citations (normalize raw))
            (used_snippets_of (normalize raw))
            (build_messages q (normalize raw))
            (py "This is a dry run; no LLM call was made.")).
  split; [|split; [|split]].
  - destruct st1 as [reqs errs e2e rag vllm tp tc tt n out].
    run. rewrite Hs. reflexivity.
  - rewrite chat_posted. cbn [ChatRequest.question ChatRequest.k].
    rewrite Hs. reflexivity.
  - intros data s Hc He. cbn [ChatRequest.question ChatRequest.k] in Hc.
    destruct (extract_content_dict data _ He) as [kv ->].
    destruct st2 as [reqs errs e2e rag vllm tp tc tt n out].
    run. cbn [ChatRequest.question ChatRequest.k]. rewrite Hs. run.
    rewrite Hc. run. rewrite He. run.
    destruct (dict_get (JDict kv) (py "usage") (JDict [])) eqn:Eu.
    + run. cbn [as_str]. run.
      match goal with
      | |- context [update_token_gauges _ ?u ?s] =>
          destruct (update_token_gauges_run u s) as (? & ? & ? & E); rewrite E
      end.
      run. eexists. reflexivity.
    + simpl in Eu. destruct (lookup (py "usage") kv); discriminate.
  - intros resp. destruct st2 as [reqs errs e2e rag vllm tp tc tt n out].
    run. cbn [ChatRequest.question ChatRequest.k]. rewrite Hs.
    repeat split_outcome; intros H; try discriminate H.
    injection H as <-. cbn. split; [reflexivity|]. eexists. split; reflexivity.
Qed.

(* ------------------------------------------------------------------ *)
(** *** Further properties of the handlers *)

(** X8. Both handlers count the request under their own route before
    anything else, on every path, failures included: after [chat] the
    request counter is the old one incremented at [/chat], after [dryrun]
    at [/dryrun]. *)
Theorem handlers_count_each_request (req : ChatRequest.t) (q : str) (k : Z)
    (st : State) :
  REQS (snd (chat_ req st)) = inc (REQS st) (py "/chat")
  /\ REQS (snd (dryrun_ q k st)) = inc (REQS st) (py "/dryrun").
Proof.
  destruct st as [reqs errs e2e rag vllm tp tc tt n out]. split.
  - chat_cases; reflexivity.
  - run. destruct (search w q k); reflexivity.
Qed.

(** X9. When the retrieval call fails, [chat] re-raises that error, counts
    it under the stage [retriever], never calls the generation backend,
    and leaves the generation and end-to-end histograms and the token
    gauges untouched. *)
Theorem chat_retrieval_failure (req : ChatRequest.t) (st : State) (e : exn) :
  search w (ChatRequest.question req) (ChatRequest.k req) = Raise e ->
  let st' := snd (chat_ req st) in
  fst (chat_ req st) = Raise e
  /\ ERRS st' = inc (ERRS st) (py "retriever")
  /\ posted_since st st' = []
  /\ VLLM_LAT st' = VLLM_LAT st
  /\ E2E_LAT st' = E2E_LAT st
  /\ token_gauges st' = token_gauges st.
Proof.
  intros Hs. destruct st as [reqs errs e2e rag vllm tp tc tt n out].
  unfold token_gauges. run. rewrite Hs. run.
  rewrite skipn_all. repeat split.
Qed.

(** X10. When the request to the generation backend fails, [chat]
    re-raises that error after posting the one payload, counts it under
    the stage [vllm], records the generation latency, and records no
    end-to-end latency and no token count. *)
Theorem chat_generation_failure (req : ChatRequest.t) (st : State)
    (raw : list Hit) (e : exn) :
  search w (ChatRequest.question req) (ChatRequest.k req) = Ok raw ->
  completions w (payload_of req raw) = Raise e ->
  let st' := snd (chat_ req st) in
  fst (chat_ req st) = Raise e
  /\ ERRS st' = inc (ERRS st) (py "vllm")
  /\ posted_since st st' = [payload_of req raw]
  /\ length (VLLM_LAT st') = S (length (VLLM_LAT st))
  /\ E2E_LAT st' = E2E_LAT st
  /\ token_gauges st' = token_gauges st.
Proof.
  intros Hs Hc. destruct st as [reqs errs e2e rag vllm tp tc tt n out].
  unfold token_gauges. run. rewrite Hs. run. rewrite Hc. run.
  rewrite skipn_app, skipn_all, Nat.sub_diag, length_app. simpl.
  repeat split. lia.
Qed.

Lemma as_str_ok (c : json) (s : str) : as_str c = Ok s -> c = JStr s.
Proof. destruct c; simpl; intros H; try discriminate. now injection H as ->. Qed.

(** X11. Once retrieval has returned its list of hits, [chat] returns a
    response exactly when the generation backend answers and the answer
    has the completion shape with a string as content; otherwise it
    raises. *)
Theorem chat_succeeds_iff (req : ChatRequest.t) (st : State)
    (raw : list Hit) :
  search w (ChatRequest.question req) (ChatRequest.k req) = Ok raw ->
  (exists resp, fst (chat_ req st) = Ok resp)
  <-> exists data s,
        completions w (payload_of req raw) = Ok data
        /\ extract_content data = Ok (JStr s).
Proof.
  intros Hs. destruct st as [reqs errs e2e rag vllm tp tc tt n out]. split.
  - intros [resp H]. revert H. run. rewrite Hs. run.
    repeat split_outcome; intros H; try discriminate H.
    match goal with Hc : as_str _ = Ok _ |- _ => apply as_str_ok in Hc; subst end.
    eauto.
  - intros (data & s & Hc & He).
    destruct (extract_content_dict data _ He) as [kv ->].
    run. rewrite Hs. run. rewrite Hc. run. rewrite He. run.
    destruct (dict_get (JDict kv) (py "usage") (JDict [])) eqn:Eu.
    + run. cbn [as_str]. run.
      match goal with
      | |- context [update_token_gauges _ ?u ?s] =>
          destruct (update_token_gauges_run u s) as (? & ? & ? & E); rewrite E
      end.
      run. eexists. reflexivity.
    + simpl in Eu. destruct (lookup (py "usage") kv); discriminate.
Qed.

(** X12. When the completion has the expected shape but its content is
    not a string (JSON [null], say), [chat] fails with [AttributeError] in
    post-processing: no stage error is counted and neither the end-to-end
    latency nor a token count is recorded. *)
Theorem chat_content_not_a_string (req : ChatRequest.t) (st : State)
    (raw : list Hit) (data c : json) :
  search w (ChatRequest.question req) (ChatRequest.k req) = Ok raw ->
  completions w (payload_of req raw) = Ok data ->
  extract_content data = Ok c ->
  (forall s, c <> JStr s) ->
  let st' := snd (chat_ req st) in
  fst (chat_ req st) = Raise AttributeError
  /\ ERRS st' = ERRS st
  /\ E2E_LAT st' = E2E_LAT st
  /\ token_gauges st' = token_gauges st.
Proof.
  intros Hs Hc He Hn.
  destruct (extract_content_dict data _ He) as [kv ->].
  destruct st as [reqs errs e2e rag vllm tp tc tt n out].
  unfold token_gauges. run. rewrite Hs. run. rewrite Hc. run. rewrite He. run.
  destruct (dict_get (JDict kv) (py "usage") (JDict [])) eqn:Eu.
  - run.
    destruct c; try (exfalso; eapply Hn; reflexivity);
      cbn [as_str]; run; repeat split.
  - simpl in Eu. destruct (lookup (py "usage") kv); discriminate.
Qed.

(** X13. A response of [chat] carries the backend's content finalised
    with the citations of the normalised evidence, those citations, and as
    [latency_seconds] the rounding of the very value it observes in the
    end-to-end histogram. *)
Theorem chat_response_fields (req : ChatRequest.t) (st : State)
    (resp : ChatResponse.t) :
  fst (chat_ req st) = Ok resp ->
  exists raw data s dt,
    search w (ChatRequest.question req) (ChatRequest.k req) = Ok raw
    /\ completions w (payload_of req raw) = Ok data
    /\ extract_content data = Ok (JStr s)
    /\ ChatResponse.citations resp = _collect_citations (normalize raw)
    /\ ChatResponse.answer resp
       = finalize lower s (ChatResponse.citations resp)
    /\ E2E_LAT (snd (chat_ req st)) = E2E_LAT st ++ [dt]
    /\ ChatResponse.latency_seconds resp = round3 dt.
Proof.
  destruct st as [reqs errs e2e rag vllm tp tc tt n out].
  chat_cases; intros H; try discriminate H.
  match goal with Hc : as_str _ = Ok _ |- _ => apply as_str_ok in Hc; subst end.
  injection H as <-. cbn.
  do 4 eexists. repeat split; eassumption || reflexivity.
Qed.

(** X14. The debug payload is returned exactly when the request asks for
    it, and then reports what was really used: the messages and the model
    parameters of the payload posted to the backend, at most the first ten
    raw hits, and one snippet per citation, labelled with it. *)
Theorem chat_debug_payload (req : ChatRequest.t) (st : State)
    (resp : ChatResponse.t) :
  fst (chat_ req st) = Ok resp ->
  if ChatRequest.debug req then
    exists dbg raw p,
      ChatResponse.debug resp = Some dbg
      /\ search w (ChatRequest.question req) (ChatRequest.k req) = Ok raw
      /\ posted_since st (snd (chat_ req st)) = [p]
      /\ Debug.messages dbg = Payload.messages p
      /\ Debug.payload_model dbg = Payload.model p
      /\ Debug.payload_temperature dbg = Payload.temperature p
      /\ Debug.payload_max_tokens dbg = Payload.max_tokens p
      /\ Debug.raw_hits dbg = firstn 10 raw
      /\ map label (Debug.used_snippets dbg) = ChatResponse.citations resp
  else ChatResponse.debug resp = None.
Proof.
  destruct st as [reqs errs e2e rag vllm tp tc tt n out].
  chat_cases; intros H; try discriminate H.
  injection H as <-. cbn [ChatResponse.debug ChatResponse.citations].
  destruct (ChatRequest.debug req); [|reflexivity].
  eexists _, _, _. split; [reflexivity|]. split; [reflexivity|].
  split; [rewrite skipn_app, skipn_all, Nat.sub_diag; reflexivity|].
  cbn [Debug.used_snippets]. repeat split.
  unfold used_snippets_of. rewrite map_map. cbn [label].
  symmetry. apply normalize_citations.
Qed.

(** X15. [dryrun] makes no call to the generation backend: it posts
    nothing and leaves the generation and end-to-end histograms and the
    token gauges as they were. It records the retrieval latency once; when
    retrieval fails it re-raises the error and counts it under the stage
    [retriever], and otherwise it leaves the error counters as they
    were. *)
Theorem dryrun_effects (q : str) (k : Z) (st : State) :
  let st' := snd (dryrun_ q k st) in
  posted_since st st' = []
  /\ VLLM_LAT st' = VLLM_LAT st
  /\ E2E_LAT st' = E2E_LAT st
  /\ token_gauges st' = token_gauges st
  /\ RAG_LAT st'
     = RAG_LAT st ++ [PrimFloat.sub (clock w (1 + now st)) (clock w (now st))]
  /\ match search w q k with
     | Ok _ => ERRS st' = ERRS st
     | Raise e => ERRS st' = inc (ERRS st) (py "retriever")
                  /\ fst (dryrun_ q k st) = Raise e
     end.
Proof.
  destruct st as [reqs errs e2e rag vllm tp tc tt n out].
  unfold token_gauges. run.
  destruct (search w q k); run; rewrite skipn_all; repeat split.
Qed.

(** X16. What [dryrun] returns is consistent: it echoes the question, and
    its [used_snippets] are one per citation, each labelled with its
    citation and in the same order. *)
Theorem dryrun_snippets_match_citations (q : str) (k : Z) (st : State)
    (d : DryrunResponse.t) :
  fst (dryrun_ q k st) = Ok d ->
  DryrunResponse.question d = q
  /\ map label (DryrunResponse.used_snippets d) = DryrunResponse.citations d
  /\ length (DryrunResponse.used_snippets d)
     = length (DryrunResponse.citations d).
Proof.
  destruct st as [reqs errs e2e rag vllm tp tc tt n out].
  run. destruct (search w q k) as [raw|e]; run; intros H; [|discriminate H].
  injection H as <-. cbn.
  assert (E : map label (used_snippets_of (normalize raw))
              = _collect_citations (normalize raw)).
  { unfold used_snippets_of. rewrite map_map. cbn [label].
    symmetry. apply normalize_citations. }
  split; [reflexivity|]. split; [exact E|].
  rewrite <- E. now rewrite length_map.
Qed.

(** X17. The update of the token gauges is best effort: it never raises,
    whatever the usage mapping holds, and touches nothing but the three
    gauges. When [usage] is not an object the gauges keep the values of the
    previous request; when a later count is malformed the gauges set
    before it keep their new value and the others their old one. *)
Theorem token_gauges_best_effort (usage : json) (st : State) :
  let st' := snd (update_token_gauges py_float usage st) in
  fst (update_token_gauges py_float usage st) = Ok tt
  /\ (REQS st', ERRS st', E2E_LAT st', RAG_LAT st', VLLM_LAT st', outbox st')
     = (REQS st, ERRS st, E2E_LAT st, RAG_LAT st, VLLM_LAT st, outbox st)
  /\ match usage with
     | JDict _ => True
     | _ => token_gauges st' = token_gauges st
     end
  /\ (forall p e,
        usage_float py_float usage (py "prompt_tokens") = Ok p ->
        usage_float py_float usage (py "completion_tokens") = Raise e ->
        token_gauges st' = (p, TOK_COMPLETION st, TOK_TOTAL st)).
Proof.
  destruct st as [reqs errs e2e rag vllm tp tc tt n out].
  unfold token_gauges, update_token_gauges, except_pass, bind, lift,
    set_TOK_PROMPT, set_TOK_COMPLETION, set_TOK_TOTAL, modify.
  cbv zeta. split; [|split; [|split]].
  - destruct (usage_float py_float usage (py "prompt_tokens")); [|reflexivity].
    destruct (usage_float py_float usage (py "completion_tokens")); [|reflexivity].
    destruct (usage_float py_float usage (py "total_tokens")); reflexivity.
  - destruct (usage_float py_float usage (py "prompt_tokens")); [|reflexivity].
    destruct (usage_float py_float usage (py "completion_tokens")); [|reflexivity].
    destruct (usage_float py_float usage (py "total_tokens")); reflexivity.
  - destruct usage; try exact I; reflexivity.
  - intros p e Hp Hc. rewrite Hp. cbv beta iota. rewrite Hc. reflexivity.
Qed.

End HandlerFacts.

(* ================================================================== *)
(** ** The handlers on the sample worlds *)

(** A complete run: the answer with its footer, the citations, the clamped
    parameters in the debug payload, one observation in each histogram. *)
Example chat_sample :
  let run := sample_chat world_ok sample_request fresh in
  option_map (fun d => (Debug.payload_temperature d, Debug.payload_max_tokens d))
    (match fst run with
     | Ok resp => ChatResponse.debug resp
     | Raise _ => None
     end) = Some (0.5%float, 256)
  /\ match fst run with
     | Ok resp =>
         ChatResponse.answer resp = py "Brush gently." ++ NL ++ py "Source: A#intro"
         /\ ChatResponse.citations resp = [py "A#intro"]
     | Raise _ => False
     end
  /\ (length (RAG_LAT (snd run)), length (VLLM_LAT (snd run)),
      length (E2E_LAT (snd run))) = (1, 1, 1)%nat
  /\ (REQS (snd run) (py "/chat"), ERRS (snd run) (py "vllm")) = (1, 0)%nat.
Proof. vm_compute. repeat split. Qed.

Lemma chat_max_tokens_below_cap_witness :
  let req := ChatRequest.mk (py "How do I rinse?") 4 (-7) 0.1%float false in
  ChatRequest.max_tokens req <= 256
  /\ Forall (fun p => Payload.max_tokens p = -7)
       (posted_since fresh (snd (sample_chat world_ok req fresh)))
  /\ posted_since fresh (snd (sample_chat world_ok req fresh)) <> [].
Proof.
  cbv zeta. split; [simpl; lia|]. split.
  - unfold sample_chat.
    apply (chat_max_tokens_below_cap lower_ascii 3 2400 sample_model
             sample_build_messages sample_float sample_round world_ok
             (ChatRequest.mk (py "How do I rinse?") 4 (-7) 0.1%float false)
             fresh).
    simpl. lia.
  - vm_compute. discriminate.
Defined.

Lemma chat_failure_skips_end_to_end_latency_witness :
  let run := sample_chat world_retrieval_down sample_request fresh in
  fst run = Raise (HttpxError (py "ConnectTimeout"))
  /\ length (RAG_LAT (snd run)) = 1%nat
  /\ E2E_LAT (snd run) = [].
Proof.
  cbv zeta.
  assert (H := chat_failure_skips_end_to_end_latency lower_ascii 3 2400
                 sample_model sample_build_messages sample_float sample_round
                 world_retrieval_down sample_request fresh).
  cbv zeta in H. destruct H as (H & _).
  destruct (H (HttpxError (py "ConnectTimeout")) eq_refl)
    as (Hr & Hrag & _ & He).
  unfold sample_chat. rewrite Hr, Hrag, He. repeat split.
Defined.

Lemma chat_malformed_completion_witness :
  let run := sample_chat world_malformed sample_request fresh in
  search world_malformed (ChatRequest.question sample_request)
    (ChatRequest.k sample_request) = Ok sample_hits
  /\ extract_content (JDict []) = Raise KeyError
  /\ fst run = Raise KeyError
  /\ ERRS (snd run) (py "vllm") = 0%nat
  /\ length (VLLM_LAT (snd run)) = 1%nat.
Proof.
  cbv zeta. split; [reflexivity|]. split; [reflexivity|].
  destruct (chat_malformed_completion_not_counted lower_ascii 3 2400
              sample_model sample_build_messages sample_float sample_round
              world_malformed sample_request fresh sample_hits (JDict [])
              KeyError eq_refl eq_refl eq_refl) as (Hr & He & Hl & _).
  unfold sample_chat. rewrite Hr, He, Hl. repeat split.
Defined.

Lemma dryrun_chat_same_messages_citations_witness :
  let req := ChatRequest.mk (py "How do I rinse?") 4 200 0.1%float true in
  search world_ok (py "How do I rinse?") 4 = Ok sample_hits
  /\ exists d resp dbg,
       fst (sample_dryrun world_ok (py "How do I rinse?") 4 fresh) = Ok d
       /\ fst (sample_chat world_ok req fresh) = Ok resp
       /\ ChatResponse.debug resp = Some dbg
       /\ ChatResponse.citations resp = DryrunResponse.citations d
       /\ Debug.messages dbg = DryrunResponse.messages d.
Proof.
  cbv zeta. split; [reflexivity|].
  destruct (dryrun_chat_same_messages_citations lower_ascii 3 2400
              sample_model sample_build_messages sample_float sample_round
              world_ok (py "How do I rinse?") 4 200 0.1%float sample_hits
              fresh fresh eq_refl) as (d & Hd & _ & Hret & Hresp).
  destruct (Hret sample_completion (py "Brush gently.") eq_refl eq_refl)
    as [resp Hr].
  destruct (Hresp resp Hr) as (Hc & dbg & Hdbg & Hm).
  exists d, resp, dbg. repeat split; assumption.
Defined.

(* ================================================================== *)
(** ** Further properties: labels and citations *)

(** X18. A citation label is never the empty string: it is ["unknown"], a
    non-empty [doc_id], or a non-empty [doc_id] followed by [#] and the
    section. *)
Theorem label_never_empty (m : option Meta) : _label m <> [].
Proof.
  unfold _label. destruct (meta_get m doc_id) as [[|c d]|]; cbn [truthy negb].
  - discriminate.
  - destruct (truthy (meta_get m section)
              && negb (str_eqb (or_empty (meta_get m section)) (py "full")));
      discriminate.
  - discriminate.
Qed.

(** X19. The citation list is empty only for an empty evidence sequence,
    and it never holds more labels than there are hits. *)
Theorem collect_citations_size (hits : list Hit) :
  (_collect_citations hits = [] <-> hits = [])
  /\ (length (_collect_citations hits) <= length hits)%nat.
Proof.
  unfold _collect_citations. split; [split|].
  - intros E. destruct hits as [|h rest]; [reflexivity|].
    assert (H : In (_label (meta h)) (collect_loop [] [] (h :: rest))).
    { apply collect_loop_In. split; [now left | intros []]. }
    rewrite E in H. destruct H.
  - intros ->. reflexivity.
  - rewrite <- (length_map (fun h => _label (meta h)) hits).
    apply NoDup_incl_length; [apply collect_loop_NoDup|].
    intros l Hl. apply collect_loop_In in Hl. apply Hl.
Qed.

(* ================================================================== *)
(** ** Further properties: the completion shape *)

(** X20. The look-up [data["choices"][0]["message"]["content"]] succeeds
    exactly on an object whose [choices] is a list starting with an object
    whose [message] is an object holding [content], and then returns that
    content; on every other body it raises. *)
Theorem extract_content_shape (data content : json) :
  extract_content data = Ok content <-> completion_shape data content.
Proof.
  unfold completion_shape, extract_content, getitem_key. split.
  - destruct data as [| | | | |l|kv]; try discriminate.
    destruct (lookup (py "choices") kv) as [choices|] eqn:Ec; [|discriminate].
    destruct choices as [| | | |[|c s]|[|choice rest]|kv']; try discriminate.
    cbn [getitem_0].
    destruct choice as [| | | | |l|ch]; try discriminate.
    destruct (lookup (py "message") ch) as [message|] eqn:Em; [|discriminate].
    destruct message as [| | | | |l|msg]; try discriminate.
    destruct (lookup (py "content") msg) as [c|] eqn:Ect; [|discriminate].
    intros H. injection H as <-. exists kv, ch, rest, msg. auto.
  - intros (kv & ch & rest & msg & -> & Ec & Em & Ect).
    rewrite Ec. cbn [getitem_0]. rewrite Em, Ect. reflexivity.
Qed.

(* ================================================================== *)
(** ** Further properties: stripping source lines *)

Section StripFacts.

Variable lower : str -> str.

(** The stripped text is made of lines without boundary, none of them a
    source line, joined by LF, the last one not empty. *)
Lemma strip_existing_source_lines (x : str) :
  exists lines,
    _strip_existing_source lower x = join NL lines
    /\ Forall no_linebreak lines
    /\ (forall l, In l lines -> is_source_line lower l = false)
    /\ (lines = [] \/ exists init last, lines = init ++ [last] /\ last <> []).
Proof.
  set (keep := fun ln => negb (is_source_line lower ln)).
  set (kept := filter keep (splitlines (rstrip x))).
  assert (Hkept : Forall no_linebreak kept).
  { apply Forall_forall. intros l Hl. apply filter_In in Hl.
    destruct Hl as [Hl _]. revert l Hl. apply Forall_forall.
    apply splitlines_no_linebreak. }
  destruct (rstrip_join kept Hkept) as (lines & E & Hnl & Hin & Hlast).
  exists lines. split; [exact E|]. split; [exact Hnl|]. split; [|exact Hlast].
  intros l Hl. destruct (Hin l Hl) as (l0 & H0 & E0).
  rewrite (is_source_line_strip lower l l0 E0).
  apply filter_In in H0. destruct H0 as [_ H0]. unfold keep in H0.
  now destruct (is_source_line lower l0).
Qed.

Lemma splitlines_of_lines (lines : list str) :
  Forall no_linebreak lines ->
  (lines = [] \/ exists init last, lines = init ++ [last] /\ last <> []) ->
  splitlines (join NL lines) = lines.
Proof.
  intros Hnl [-> | (init & last & -> & Hne)]; [reflexivity|].
  apply Forall_app in Hnl. destruct Hnl as [Hi Hl].
  inversion Hl; subst. now apply splitlines_join.
Qed.

(** X21. What [_strip_existing_source] returns has no white space at its
    end, no line that is a source line, and LF as its only line boundary:
    joining its lines with LF gives it back. *)
Theorem strip_existing_source_clean (x : str) :
  let y := _strip_existing_source lower x in
  rstrip y = y
  /\ Forall (fun ln => is_source_line lower ln = false) (splitlines y)
  /\ join NL (splitlines y) = y.
Proof.
  cbv zeta.
  destruct (strip_existing_source_lines x) as (lines & E & Hnl & Hsrc & Hlast).
  split; [apply rstrip_idem|].
  rewrite E, (splitlines_of_lines lines Hnl Hlast).
  split; [now apply Forall_forall | reflexivity].
Qed.

(** X22. [_strip_existing_source] is idempotent. *)
Theorem strip_existing_source_idempotent (x : str) :
  _strip_existing_source lower (_strip_existing_source lower x)
  = _strip_existing_source lower x.
Proof.
  destruct (strip_existing_source_lines x) as (lines & E & Hnl & Hsrc & Hlast).
  assert (Hfix : rstrip (join NL lines) = join NL lines).
  { rewrite <- E. apply rstrip_idem. }
  rewrite E. unfold _strip_existing_source.
  rewrite Hfix, (splitlines_of_lines lines Hnl Hlast), filter_all, Hfix.
  - reflexivity.
  - intros l Hl. now rewrite (Hsrc l Hl).
Qed.

(** X23. When every line of the content is a source line, and so also
    when the content is blank, nothing of it is kept: the stripped text is
    empty and the final answer is the footer alone, starting with its line
    feed. *)
Theorem finalize_only_source_lines (x : str) (citations : list str) :
  Forall (fun ln => is_source_line lower ln = true) (splitlines (rstrip x)) ->
  _strip_existing_source lower x = []
  /\ finalize lower x citations = source_footer citations.
Proof.
  intros H.
  assert (E : _strip_existing_source lower x = []).
  { unfold _strip_existing_source. rewrite filter_none; [reflexivity|].
    intros l Hl. rewrite Forall_forall in H. now rewrite (H l Hl). }
  split; [exact E|]. unfold finalize. now rewrite E.
Qed.

(** X24. A text made of lines without boundary joined by LF, none of them
    a source line and the last one neither empty nor ending in white
    space, passes [_strip_existing_source] unchanged. *)
Theorem strip_existing_source_keeps_clean_text (init : list str) (last : str) :
  Forall no_linebreak (init ++ [last]) ->
  Forall (fun ln => is_source_line lower ln = false) (init ++ [last]) ->
  last <> [] -> rstrip last = last ->
  _strip_existing_source lower (join NL (init ++ [last]))
  = join NL (init ++ [last]).
Proof.
  intros Hnl Hsrc Hne Hr.
  assert (Hfix : rstrip (join NL (init ++ [last])) = join NL (init ++ [last])).
  { destruct init as [|i0 init]; [exact Hr|].
    rewrite join_snoc by discriminate.
    assert (Hl : rstrip last <> []) by (rewrite Hr; exact Hne).
    rewrite rstrip_app_keep.
    - rewrite (rstrip_app_keep NL last Hl). now rewrite Hr.
    - rewrite (rstrip_app_keep NL last Hl). discriminate. }
  unfold _strip_existing_source. rewrite Hfix.
  apply Forall_app in Hnl. destruct Hnl as [Hi Hl]. inversion Hl; subst.
  rewrite splitlines_join by assumption.
  rewrite filter_all, Hfix; [reflexivity|].
  intros l Hin. rewrite Forall_forall in Hsrc. now rewrite (Hsrc l Hin).
Qed.

End StripFacts.

(* ================================================================== *)
(** ** Further properties: the noise filter *)

Section NoiseFacts.

Variable lower : str -> str.
Variable MAX_CTX_SNIPPETS : Z.
Variable MAX_CTX_CHARS : Z.

Hypothesis lower_ascii_prefix : forall p s,
  forallb is_ascii p = true -> exists r, lower (p ++ s) = map ascii_lower p ++ r.

Lemma ascii_lower_is_ascii (c : codepoint) :
  is_ascii (ascii_lower c) = true -> is_ascii c = true.
Proof.
  unfold is_ascii, ascii_lower.
  destruct ((65 <=? c) && (c <=? 90))%N eqn:E; [|auto].
  apply andb_true_iff in E. destruct E as [_ E]. apply N.leb_le in E.
  intros _. apply N.ltb_lt. lia.
Qed.

Lemma ascii_lower_all_ascii (p : str) :
  forallb is_ascii (map ascii_lower p) = true -> forallb is_ascii p = true.
Proof.
  induction p as [|c p IH]; simpl; [auto|].
  rewrite !andb_true_iff. intros [Hc Hp].
  split; [now apply ascii_lower_is_ascii | now apply IH].
Qed.

(** X25. The noise filter is case-insensitive: a hit whose [doc_id]
    starts, in any mix of upper and lower case, with
    [recent_queries.jsonl] is never among the evidence [normalize]
    returns. *)
Theorem normalize_drops_recent_queries (hits : list Hit) (h : Hit)
    (p rest : str) :
  meta_get (meta h) doc_id = Some (p ++ rest) ->
  map ascii_lower p = py "recent_queries.jsonl" ->
  ~ In h (_normalize_hits lower MAX_CTX_SNIPPETS MAX_CTX_CHARS hits).
Proof.
  intros Hd Hp Hin.
  apply normalize_selects_input_hits_aux in Hin.
  assert (Ha : forallb is_ascii p = true).
  { apply ascii_lower_all_ascii. now rewrite Hp. }
  destruct (lower_ascii_prefix p rest Ha) as [r Hr].
  unfold is_recent_query in Hin. rewrite Hd in Hin. cbn [or_empty] in Hin.
  rewrite Hr, Hp, startswith_app in Hin. discriminate.
Qed.

End NoiseFacts.

(* ================================================================== *)
(** ** The further properties on the sample instances *)

Lemma normalize_first_of_each_label_witness :
  let h := mkHit (Some (py "hello"))
             (Some (mkMeta (Some (py "A")) (Some (py "intro")) None)) in
  In h (_normalize_hits lower_ascii 3 2400 sample_duplicates)
  /\ first_with_label (_label (meta h))
       (sort_by_key text_is_none (filter_noise lower_ascii sample_duplicates))
     = Some h.
Proof.
  cbv zeta.
  assert (Hin : In (mkHit (Some (py "hello"))
                      (Some (mkMeta (Some (py "A")) (Some (py "intro")) None)))
                  (_normalize_hits lower_ascii 3 2400 sample_duplicates))
    by (left; reflexivity).
  split; [exact Hin|].
  exact (normalize_first_of_each_label lower_ascii 3 2400 sample_duplicates _ Hin).
Defined.

Lemma normalize_empty_without_budget_witness :
  (0 <= 0 \/ 2400 < 0) /\ _normalize_hits lower_ascii 0 2400 sample_hits = [].
Proof.
  split; [left; lia|].
  apply (normalize_empty_without_budget lower_ascii 0 2400 sample_hits).
  left; lia.
Defined.

Lemma normalize_keeps_all_within_budget_witness :
  Z.of_nat (length (dedup_hits lower_ascii sample_duplicates)) <= 3
  /\ total_chars (dedup_hits lower_ascii sample_duplicates) <= 2400
  /\ _normalize_hits lower_ascii 3 2400 sample_duplicates
     = dedup_hits lower_ascii sample_duplicates.
Proof.
  assert (H1 : Z.of_nat (length (dedup_hits lower_ascii sample_duplicates)) <= 3)
    by (vm_compute; discriminate).
  assert (H2 : total_chars (dedup_hits lower_ascii sample_duplicates) <= 2400)
    by (vm_compute; discriminate).
  split; [exact H1|]. split; [exact H2|].
  exact (normalize_keeps_all_within_budget lower_ascii 3 2400
           sample_duplicates H1 H2).
Defined.

Lemma normalize_drops_recent_queries_witness :
  ~ In sample_noise_hit
      (_normalize_hits lower_ascii 3 2400 (sample_noise_hit :: sample_hits)).
Proof.
  apply (normalize_drops_recent_queries lower_ascii 3 2400
           lower_ascii_prefix_holds (sample_noise_hit :: sample_hits)
           sample_noise_hit (py "Recent_Queries.JSONL") (py ".gz"));
    reflexivity.
Defined.

Lemma finalize_only_source_lines_witness :
  Forall (fun ln => is_source_line lower_ascii ln = true)
    (splitlines (rstrip sample_only_sources))
  /\ finalize lower_ascii sample_only_sources [py "A#intro"]
     = NL ++ py "Source: A#intro".
Proof.
  assert (H : Forall (fun ln => is_source_line lower_ascii ln = true)
                (splitlines (rstrip sample_only_sources)))
    by (vm_compute; repeat constructor).
  split; [exact H|].
  rewrite (proj2 (finalize_only_source_lines lower_ascii sample_only_sources
                    [py "A#intro"] H)).
  reflexivity.
Defined.

Lemma strip_existing_source_keeps_clean_text_witness :
  let init := [py "Rinse twice a day."; []] in
  let last := py "Use a soft brush." in
  _strip_existing_source lower_ascii (join NL (init ++ [last]))
  = join NL (init ++ [last]).
Proof.
  cbv zeta.
  apply (strip_existing_source_keeps_clean_text lower_ascii
           [py "Rinse twice a day."; []] (py "Use a soft brush.")).
  - repeat constructor.
  - repeat constructor.
  - discriminate.
  - reflexivity.
Defined.

Lemma chat_retrieval_failure_witness :
  let run := sample_chat world_retrieval_down sample_request fresh in
  fst run = Raise (HttpxError (py "ConnectTimeout"))
  /\ ERRS (snd run) (py "retriever") = 1%nat
  /\ posted_since fresh (snd run) = [].
Proof.
  cbv zeta.
  assert (H := chat_retrieval_failure lower_ascii 3 2400 sample_model
                 sample_build_messages sample_float sample_round
                 world_retrieval_down sample_request fresh
                 (HttpxError (py "ConnectTimeout")) eq_refl).
  cbv zeta in H. destruct H as (Hr & He & Hp & _).
  unfold sample_chat. rewrite Hr, He, Hp. repeat split.
Defined.

Lemma chat_generation_failure_witness :
  let run := sample_chat world_generation_down sample_request fresh in
  fst run = Raise (HttpxError (py "ReadTimeout"))
  /\ ERRS (snd run) (py "vllm") = 1%nat
  /\ length (posted_since fresh (snd run)) = 1%nat
  /\ E2E_LAT (snd run) = [].
Proof.
  cbv zeta.
  assert (H := chat_generation_failure lower_ascii 3 2400 sample_model
                 sample_build_messages sample_float sample_round
                 world_generation_down sample_request fresh sample_hits
                 (HttpxError (py "ReadTimeout")) eq_refl eq_refl).
  cbv zeta in H. destruct H as (Hr & He & Hp & _ & H2 & _).
  unfold sample_chat. rewrite Hr, He, Hp, H2. repeat split.
Defined.

Lemma chat_content_not_a_string_witness :
  let run := sample_chat world_null_content sample_request fresh in
  fst run = Raise AttributeError
  /\ ERRS (snd run) (py "vllm") = 0%nat
  /\ E2E_LAT (snd run) = [].
Proof.
  cbv zeta.
  assert (Hn : forall s, JNull <> JStr s) by discriminate.
  assert (H := chat_content_not_a_string lower_ascii 3 2400 sample_model
                 sample_build_messages sample_float sample_round
                 world_null_content sample_request fresh sample_hits _ JNull
                 eq_refl eq_refl eq_refl Hn).
  cbv zeta in H. destruct H as (Hr & He & H2 & _).
  unfold sample_chat. rewrite Hr, He, H2. repeat split.
Defined.

Lemma sample_chat_returns :
  exists resp,
    fst (chat lower_ascii 3 2400 sample_model sample_build_messages
           sample_float sample_round world_ok sample_request fresh) = Ok resp.
Proof. vm_compute. eexists. reflexivity. Qed.

Lemma chat_response_fields_witness :
  exists resp s dt,
    fst (sample_chat world_ok sample_request fresh) = Ok resp
    /\ ChatResponse.answer resp = finalize lower_ascii s (ChatResponse.citations resp)
    /\ E2E_LAT (snd (sample_chat world_ok sample_request fresh)) = [] ++ [dt]
    /\ ChatResponse.latency_seconds resp = sample_round dt.
Proof.
  destruct sample_chat_returns as [resp Hr].
  destruct (chat_response_fields lower_ascii 3 2400 sample_model
              sample_build_messages sample_float sample_round world_ok
              sample_request fresh resp Hr)
    as (raw & data & s & dt & _ & _ & _ & _ & Ha & He & Hl).
  exists resp, s, dt. exact (conj Hr (conj Ha (conj He Hl))).
Defined.

Lemma chat_debug_payload_witness :
  exists resp dbg p,
    fst (sample_chat world_ok sample_request fresh) = Ok resp
    /\ ChatResponse.debug resp = Some dbg
    /\ posted_since fresh (snd (sample_chat world_ok sample_request fresh)) = [p]
    /\ Debug.payload_temperature dbg = Payload.temperature p
    /\ Debug.payload_max_tokens dbg = Payload.max_tokens p
    /\ map label (Debug.used_snippets dbg) = ChatResponse.citations resp.
Proof.
  destruct sample_chat_returns as [resp Hr].
  assert (H := chat_debug_payload lower_ascii 3 2400 sample_model
                 sample_build_messages sample_float sample_round world_ok
                 sample_request fresh resp Hr).
  change (ChatRequest.debug sample_request) with true in H. cbv iota in H.
  destruct H as (dbg & raw & p & Hd & _ & Hp & _ & _ & Ht & Hm & _ & Hs).
  exists resp, dbg, p.
  exact (conj Hr (conj Hd (conj Hp (conj Ht (conj Hm Hs))))).
Defined.

Lemma dryrun_snippets_match_citations_witness :
  exists d,
    fst (sample_dryrun world_ok (py "How do I rinse?") 4 fresh) = Ok d
    /\ map label (DryrunResponse.used_snippets d) = [py "A#intro"]
    /\ DryrunResponse.citations d = [py "A#intro"].
Proof.
  assert (Hd : exists d,
             fst (dryrun lower_ascii 3 2400 sample_build_messages world_ok
                    (py "How do I rinse?") 4 fresh) = Ok d
             /\ DryrunResponse.citations d = [py "A#intro"]).
  { vm_compute. eexists. split; reflexivity. }
  destruct Hd as (d & Hd & Hc).
  destruct (dryrun_snippets_match_citations lower_ascii 3 2400
              sample_build_messages world_ok (py "How do I rinse?") 4 fresh
              d Hd) as (_ & Hm & _).
  exists d. rewrite Hm. exact (conj Hd (conj Hc Hc)).
Defined.

Lemma chat_succeeds_iff_witness :
  search world_ok (ChatRequest.question sample_request)
    (ChatRequest.k sample_request) = Ok sample_hits
  /\ exists resp, fst (sample_chat world_ok sample_request fresh) = Ok resp.
Proof.
  split; [reflexivity|].
  apply (chat_succeeds_iff lower_ascii 3 2400 sample_model
           sample_build_messages sample_float sample_round world_ok
           sample_request fresh sample_hits eq_refl).
  exists sample_completion, (py "Brush gently."). split; reflexivity.
Defined.
